(** * Vision_collage: a model of [main.py]

    The wallpaper utility of [main.py] is embedded here method by method.
    Python integers are [Z], Python lists are [list], URLs and messages are
    [string]s, and the attributes of [MainWindow] are the fields of a record
    that each method takes and returns.  What the program obtains from its
    collaborators (HTTP responses, decoded pictures, the JPEG encoder, the
    clock, the platform) is read from a [World] record, so that every method
    is a function that can be evaluated. *)

From Stdlib Require Import SpecFloat.
From stdpp Require Import base numbers list strings gmap.

Local Open Scope Z_scope.

(** ** Values shared by the whole program *)

Definition url := string.
Definition bytes := list Byte.byte.

(** The outcome of a call that may raise: [Raised e] carries [str(e)]. *)
Inductive Result (A : Type) : Type :=
| Ok (a : A)
| Raised (e : string).
Arguments Ok {A} a.
Arguments Raised {A} e.

(** Statements in a [try] block: the first exception ends the block. *)
#[global] Instance Result_ret : MRet Result := λ A a, Ok a.
#[global] Instance Result_bind : MBind Result := λ A B k r,
  match r with
  | Ok a => k a
  | Raised e => Raised e
  end.

(** ** Pictures (PIL) *)

(** A picture is described by how it was made: opened from a stream, created
    blank, resampled to a size, or a canvas with a picture pasted on it. *)
Inductive Image : Type :=
| Decoded (content : bytes) (size : Z * Z)
| New (mode : string) (size : Z * Z)
| Resized (im : Image) (size : Z * Z)
| Pasted (canvas : Image) (im : Image) (box : Z * Z).

Fixpoint im_size (im : Image) : Z * Z :=
  match im with
  | Decoded _ size => size
  | New _ size => size
  | Resized _ size => size
  | Pasted canvas _ _ => im_size canvas
  end.

(** [round_aspect(number, key)] of [Image.thumbnail], for [number = num/den]:
    whichever of floor and ceiling has the smaller key (the floor on a tie),
    and at least 1.  [closer f c] compares the keys of the two candidates. *)
Definition round_aspect (num den : Z) (closer : Z → Z → bool) : Z :=
  let f := num `div` den in
  let c := - ((- num) `div` den) in
  Z.max (if closer f c then f else c) 1.

(** Python floats: binary64, rounded to nearest even. [truediv a b] is the
    quotient [a / b] of two integers. *)
Definition float_of_int (n : Z) : spec_float := binary_normalize 53 1024 n 0 false.
Definition truediv (a b : Z) : spec_float :=
  SFdiv 53 1024 (float_of_int a) (float_of_int b).
Definition fsub (a b : spec_float) : spec_float := SFsub 53 1024 a b.

(** [min(f, c, key=key)] returns [c] only when its key is less. *)
Definition min_by_key (key : Z → spec_float) (f c : Z) : bool :=
  negb (SFltb (key c) (key f)).

(** The size computed by [Image.thumbnail(size)] for a picture [w] by [h] and
    a requested box [x] by [y] ([preserve_aspect_ratio] in PIL): unchanged
    when the picture already fits; otherwise one side of the box is kept and
    the other side is [round_aspect] of the proportional length, with the
    keys [abs(aspect - n / y)] and [0 if n == 0 else abs(aspect - x / n)]
    computed in floating point as PIL computes them, so that a tie of the
    two candidates falls as it falls there.  The test [x / y >= aspect] and
    the floor and the ceiling of [y * aspect] and [x / aspect] are taken of
    the exact quotients; the floating-point ones are the same as long as
    [w * y] and [h * x] are below [2 ^ 52]. *)
Definition thumbnail_size (size box : Z * Z) : Z * Z :=
  let '(w, h) := size in
  let '(x, y) := box in
  if bool_decide (w ≤ x) && bool_decide (h ≤ y) then (w, h)
  else
    let aspect := truediv w h in
    if bool_decide (w * y ≤ x * h) then
      (round_aspect (y * w) h
         (min_by_key (λ n, SFabs (fsub aspect (truediv n y)))), y)
    else
      (x, round_aspect (x * h) w
            (min_by_key (λ n, if bool_decide (n = 0) then S754_zero false
                              else SFabs (fsub aspect (truediv x n))))).

(** [img.thumbnail(size)]: the picture is replaced by a version of itself no
    larger than [size]; a picture that fits is left as it is. *)
Definition thumbnail (im : Image) (box : Z * Z) : Image :=
  if bool_decide (thumbnail_size (im_size im) box = im_size im) then im
  else Resized im (thumbnail_size (im_size im) box).

(** [canvas.paste(im, box)] with the upper left corner [box]. *)
Definition paste (canvas im : Image) (box : Z * Z) : Image :=
  Pasted canvas im box.

(** The pictures pasted on a canvas with their corners, oldest first, and the
    canvas they were pasted on. *)
Fixpoint layers (im : Image) : list (Image * (Z * Z)) :=
  match im with
  | Pasted canvas i box => layers canvas ++ [(i, box)]
  | _ => []
  end.

Fixpoint canvas_base (im : Image) : Image :=
  match im with
  | Pasted canvas _ _ => canvas_base canvas
  | _ => im
  end.

(** ** The collaborators *)

Inductive Request : Type :=
| GET_listing (page : Z)
| GET_image (u : url).

Record World := {
  (** [requests.get(url, ...)] on a picture: the body, or the exception *)
  requests_get : url → Result bytes;
  (** the listing request of [load_images] for a page, through [.json()] and
      the comprehension over ["download_url"] *)
  requests_get_listing : Z → Result (list url);
  (** whether PIL can open a stream, and the size of the picture if so *)
  identify : bytes → Result (Z * Z);
  (** the encoder behind [save] on a [.jpg] path *)
  encode_jpeg : Image → Result bytes;
  (** [int(time.time())] *)
  now : Z;
  (** [sys.platform] *)
  platform : string;
  (** the directory that [os.path.abspath] resolves against *)
  cwd : string;
  (** the call that sets the desktop background on a recognized platform *)
  os_set_background : string → Result ();
}.

(** ** Widgets *)

(** A thumbnail [QLabel] of the grid: its [url] attribute, the cell given to
    [grid.addWidget] and its current style sheet. *)
Record Thumbnail := {
  th_url : url;
  th_row : Z;
  th_col : Z;
  th_style : string;
}.

Definition style_placeholder : string :=
  "border: 2px solid #BDBDBD; border-radius: 8px; background: #F5F5F5;".
Definition style_selected : string := "border: 3px solid #4CAF50;".
Definition style_unselected : string := "border: 2px solid #BDBDBD;".

Definition setStyleSheet (s : string) (t : Thumbnail) : Thumbnail :=
  {| th_url := th_url t; th_row := th_row t; th_col := th_col t; th_style := s |}.

(** ** The loader thread *)

(** A [QPixmap] filled by [loadFromData] from the bytes of a response. *)
Inductive QPixmap : Type := Pixmap (content : bytes).

(** Where the thread of an [ImageLoader] stands: started and not yet in
    [run], inside [requests.get], past the test that guards [loaded.emit]
    with the pixmap to emit, or returned from [run]. *)
Inductive Phase : Type :=
| Started
| Requesting
| Tested (pixmap : QPixmap)
| Finished.

(** An [ImageLoader]: the label it loads for (the index of the widget among
    the grid items), its URL, its [_is_running] flag and its thread. *)
Record ImageLoader := {
  label : nat;
  loader_url : url;
  _is_running : bool;
  phase : Phase;
}.

(** The two signals of the class, with their arguments. *)
Inductive Signal : Type :=
| loaded (l : nat) (pixmap : QPixmap) (u : url)
| error (msg : string).

Definition set_phase (p : Phase) (l : ImageLoader) : ImageLoader :=
  {| label := label l; loader_url := loader_url l;
     _is_running := _is_running l; phase := p |}.

(** [stop()]: the flag is cleared; [quit()] ends an event loop that [run]
    never enters, and [wait(1000)] returns after the thread has finished or
    after one second, whichever comes first. *)
Definition stop (l : ImageLoader) : ImageLoader :=
  {| label := label l; loader_url := loader_url l;
     _is_running := false; phase := phase l |}.

(** The first statement of [run]: return at once when the flag is clear,
    otherwise send the request. *)
Definition run_enter (l : ImageLoader) : ImageLoader :=
  if negb (_is_running l) then set_phase Finished l
  else set_phase Requesting l.

(** [run] once [requests.get] and [raise_for_status] have returned the body
    or raised, up to the test of the flag; [loadFromData] tells whether the
    body decodes. The flag is read after the body has been decoded. When the
    test passes, [loaded.emit] is the next statement of the thread and
    nothing is emitted yet; when it fails or the request raised, [error] is
    emitted. *)
Definition run_resume (loadFromData : bytes → bool) (r : Result bytes)
    (l : ImageLoader) : ImageLoader * list Signal :=
  match r with
  | Ok content =>
      if loadFromData content && _is_running l then
        (set_phase (Tested (Pixmap content)) l, [])
      else
        (set_phase Finished l, [error ("无效的图片数据: " +:+ loader_url l)])
  | Raised e =>
      (set_phase Finished l,
       [error ("加载失败: " +:+ loader_url l +:+ " - " +:+ e)])
  end.

(** [self.loaded.emit(self.label, pixmap, self.url)], the statement after
    the test: the flag is not read again. *)
Definition run_emit (pixmap : QPixmap) (l : ImageLoader)
  : ImageLoader * list Signal :=
  (set_phase Finished l, [loaded (label l) pixmap (loader_url l)]).

(** What can happen to a loader: its thread reaches [run], the request of
    its thread completes and the thread goes on to the test, the thread goes
    on from the test to [loaded.emit], or the window calls [stop]. *)
Inductive Event : Type :=
| RunEnters
| RequestCompletes (r : Result bytes)
| EmitRuns
| StopCalled.

Definition step (loadFromData : bytes → bool) (ev : Event) (l : ImageLoader)
  : ImageLoader * list Signal :=
  match ev, phase l with
  | RunEnters, Started => (run_enter l, [])
  | RequestCompletes r, Requesting => run_resume loadFromData r l
  | EmitRuns, Tested pixmap => run_emit pixmap l
  | StopCalled, _ => (stop l, [])
  | _, _ => (l, [])
  end.

(** A schedule of events, oldest first, and the signals emitted along it. *)
Fixpoint exec (loadFromData : bytes → bool) (evs : list Event)
    (l : ImageLoader) : ImageLoader * list Signal :=
  match evs with
  | [] => (l, [])
  | ev :: rest =>
      let '(l1, out1) := step loadFromData ev l in
      let '(l2, out2) := exec loadFromData rest l1 in
      (l2, out1 ++ out2)
  end.

(** [ImageLoader(label, url)] followed by [start()]. *)
Definition new_loader (lbl : nat) (u : url) : ImageLoader :=
  {| label := lbl; loader_url := u; _is_running := true; phase := Started |}.

Definition is_loaded (s : Signal) : bool :=
  match s with loaded _ _ _ => true | error _ => false end.

(** ** The window *)

(** The attributes of [MainWindow] that the methods read or write: the items
    of [self.grid], the five lists and counters of [__init__], whether
    [btn_generate] is enabled, and the interval of [wallpaper_timer] while it
    runs.  They are followed by what the methods do outside the window: the
    messages shown by [show_message], the HTTP requests sent, the files on
    disk and the paths handed to the desktop, the lists oldest first. *)
Record MainWindow := {
  grid : list Thumbnail;
  selected_images : list url;
  excluded_urls : list url;
  current_page : Z;
  loaders : list ImageLoader;
  current_batch : list url;
  btn_generate_enabled : bool;
  wallpaper_timer : option Z;
  shown_messages : list (string * Z);
  requests_sent : list Request;
  files : gmap string bytes;
  backgrounds : list string;
}.

Definition set_grid (g : list Thumbnail) (w : MainWindow) : MainWindow :=
  {| grid := g;
     selected_images := selected_images w;
     excluded_urls := excluded_urls w;
     current_page := current_page w;
     loaders := loaders w;
     current_batch := current_batch w;
     btn_generate_enabled := btn_generate_enabled w;
     wallpaper_timer := wallpaper_timer w;
     shown_messages := shown_messages w;
     requests_sent := requests_sent w;
     files := files w;
     backgrounds := backgrounds w |}.

Definition set_selected_images (l : list url) (w : MainWindow) : MainWindow :=
  {| grid := grid w;
     selected_images := l;
     excluded_urls := excluded_urls w;
     current_page := current_page w;
     loaders := loaders w;
     current_batch := current_batch w;
     btn_generate_enabled := btn_generate_enabled w;
     wallpaper_timer := wallpaper_timer w;
     shown_messages := shown_messages w;
     requests_sent := requests_sent w;
     files := files w;
     backgrounds := backgrounds w |}.

Definition set_current_page (p : Z) (w : MainWindow) : MainWindow :=
  {| grid := grid w;
     selected_images := selected_images w;
     excluded_urls := excluded_urls w;
     current_page := p;
     loaders := loaders w;
     current_batch := current_batch w;
     btn_generate_enabled := btn_generate_enabled w;
     wallpaper_timer := wallpaper_timer w;
     shown_messages := shown_messages w;
     requests_sent := requests_sent w;
     files := files w;
     backgrounds := backgrounds w |}.

Definition set_loaders (l : list ImageLoader) (w : MainWindow) : MainWindow :=
  {| grid := grid w;
     selected_images := selected_images w;
     excluded_urls := excluded_urls w;
     current_page := current_page w;
     loaders := l;
     current_batch := current_batch w;
     btn_generate_enabled := btn_generate_enabled w;
     wallpaper_timer := wallpaper_timer w;
     shown_messages := shown_messages w;
     requests_sent := requests_sent w;
     files := files w;
     backgrounds := backgrounds w |}.

Definition set_current_batch (l : list url) (w : MainWindow) : MainWindow :=
  {| grid := grid w;
     selected_images := selected_images w;
     excluded_urls := excluded_urls w;
     current_page := current_page w;
     loaders := loaders w;
     current_batch := l;
     btn_generate_enabled := btn_generate_enabled w;
     wallpaper_timer := wallpaper_timer w;
     shown_messages := shown_messages w;
     requests_sent := requests_sent w;
     files := files w;
     backgrounds := backgrounds w |}.

(** [self.btn_generate.setEnabled(b)] *)
Definition setEnabled (b : bool) (w : MainWindow) : MainWindow :=
  {| grid := grid w;
     selected_images := selected_images w;
     excluded_urls := excluded_urls w;
     current_page := current_page w;
     loaders := loaders w;
     current_batch := current_batch w;
     btn_generate_enabled := b;
     wallpaper_timer := wallpaper_timer w;
     shown_messages := shown_messages w;
     requests_sent := requests_sent w;
     files := files w;
     backgrounds := backgrounds w |}.

(** [self.wallpaper_timer.start(msec)]: the timer runs, or runs anew, with
    this interval. *)
Definition timer_start (msec : Z) (w : MainWindow) : MainWindow :=
  {| grid := grid w;
     selected_images := selected_images w;
     excluded_urls := excluded_urls w;
     current_page := current_page w;
     loaders := loaders w;
     current_batch := current_batch w;
     btn_generate_enabled := btn_generate_enabled w;
     wallpaper_timer := Some msec;
     shown_messages := shown_messages w;
     requests_sent := requests_sent w;
     files := files w;
     backgrounds := backgrounds w |}.

(** [show_message(text, duration)]: a label is shown and hidden again after
    [duration] milliseconds. *)
Definition show_message (text : string) (duration : Z) (w : MainWindow) : MainWindow :=
  {| grid := grid w;
     selected_images := selected_images w;
     excluded_urls := excluded_urls w;
     current_page := current_page w;
     loaders := loaders w;
     current_batch := current_batch w;
     btn_generate_enabled := btn_generate_enabled w;
     wallpaper_timer := wallpaper_timer w;
     shown_messages := shown_messages w ++ [(text, duration)];
     requests_sent := requests_sent w;
     files := files w;
     backgrounds := backgrounds w |}.

(** A call of [requests.get]. *)
Definition send (r : Request) (w : MainWindow) : MainWindow :=
  {| grid := grid w;
     selected_images := selected_images w;
     excluded_urls := excluded_urls w;
     current_page := current_page w;
     loaders := loaders w;
     current_batch := current_batch w;
     btn_generate_enabled := btn_generate_enabled w;
     wallpaper_timer := wallpaper_timer w;
     shown_messages := shown_messages w;
     requests_sent := requests_sent w ++ [r];
     files := files w;
     backgrounds := backgrounds w |}.

Definition set_files (fs : gmap string bytes) (w : MainWindow) : MainWindow :=
  {| grid := grid w;
     selected_images := selected_images w;
     excluded_urls := excluded_urls w;
     current_page := current_page w;
     loaders := loaders w;
     current_batch := current_batch w;
     btn_generate_enabled := btn_generate_enabled w;
     wallpaper_timer := wallpaper_timer w;
     shown_messages := shown_messages w;
     requests_sent := requests_sent w;
     files := fs;
     backgrounds := backgrounds w |}.

Definition apply_background (path : string) (w : MainWindow) : MainWindow :=
  {| grid := grid w;
     selected_images := selected_images w;
     excluded_urls := excluded_urls w;
     current_page := current_page w;
     loaders := loaders w;
     current_batch := current_batch w;
     btn_generate_enabled := btn_generate_enabled w;
     wallpaper_timer := wallpaper_timer w;
     shown_messages := shown_messages w;
     requests_sent := requests_sent w;
     files := files w;
     backgrounds := backgrounds w ++ [path] |}.

(** [img.save(path)] on a [.jpg] path.  The file is opened for writing before
    the encoder runs: when the encoder raises, a file that was there is left
    empty and a file that [save] created is removed again. *)
Definition save (W : World) (img : Image) (path : string) (w : MainWindow)
  : Result () * MainWindow :=
  match encode_jpeg W img with
  | Ok content => (Ok (), set_files (<[path := content]> (files w)) w)
  | Raised e =>
      (Raised e,
       match files w !! path with
       | Some _ => set_files (<[path := []]> (files w)) w
       | None => w
       end)
  end.

(** ** Selection *)

(** [list.remove(x)]: deletes the first element equal to [x]. *)
Fixpoint list_remove (x : url) (l : list url) : list url :=
  match l with
  | [] => []
  | y :: l' => if decide (y = x) then l' else y :: list_remove x l'
  end.

(** The loop of [update_selection_ui]: the first widget whose [url] is
    [u] gets the selected or the unselected border, and the loop breaks. *)
Fixpoint restyle (u : url) (sel : list url) (items : list Thumbnail)
  : list Thumbnail :=
  match items with
  | [] => []
  | t :: rest =>
      if decide (th_url t = u) then
        setStyleSheet
          (if bool_decide (u ∈ sel) then style_selected else style_unselected) t
        :: rest
      else t :: restyle u sel rest
  end.

Definition update_selection_ui (u : url) (w : MainWindow) : MainWindow :=
  set_grid (restyle u (selected_images w) (grid w)) w.

Definition msg_capacity : string * Z := ("最多选择10张图片", 2000).

Definition toggle_selection (u : url) (w : MainWindow) : MainWindow :=
  if bool_decide (u ∈ excluded_urls w) then w
  else
    let refresh (w1 : MainWindow) :=
      let w2 := update_selection_ui u w1 in
      setEnabled (bool_decide (0 < length (selected_images w2))%nat) w2 in
    if bool_decide (u ∈ selected_images w) then
      refresh (set_selected_images (list_remove u (selected_images w)) w)
    else if bool_decide (10 ≤ length (selected_images w))%nat then
      show_message msg_capacity.1 msg_capacity.2 w
    else
      refresh (set_selected_images (selected_images w ++ [u]) w).

(** A run of clicks on thumbnails, oldest first. *)
Definition toggle_all (us : list url) (w : MainWindow) : MainWindow :=
  foldl (λ acc u, toggle_selection u acc) w us.

(** What every reachable selection satisfies. *)
Definition selection_ok (l : list url) : Prop :=
  NoDup l ∧ (length l ≤ 10)%nat.

(** ** Batches *)

(** [clear_current_batch]: every loader is stopped and forgotten, every
    widget is taken out of the grid, and the batch is emptied. *)
Definition clear_current_batch (w : MainWindow) : MainWindow :=
  set_current_batch [] (set_grid [] (set_loaders [] w)).

(** [add_image_thumbnail(url, position)]: a label with the placeholder, a
    started loader for it, and the label added to the grid at the cell
    [(position // 3, position % 3)]. *)
Definition add_image_thumbnail (u : url) (position : Z) (w : MainWindow)
  : MainWindow :=
  let thumbnail :=
    {| th_url := u; th_row := position `div` 3; th_col := position `mod` 3;
       th_style := style_placeholder |} in
  let loader := new_loader (length (grid w)) u in
  set_grid (grid w ++ [thumbnail]) (set_loaders (loaders w ++ [loader]) w).

(** [for i, url in enumerate(image_urls): self.add_image_thumbnail(url, i)],
    from the index [i] on. *)
Fixpoint add_thumbnails (i : Z) (image_urls : list url) (w : MainWindow)
  : MainWindow :=
  match image_urls with
  | [] => w
  | u :: rest => add_thumbnails (i + 1) rest (add_image_thumbnail u i w)
  end.

Definition msg_load_failed (e : string) : string * Z :=
  ("图片加载失败: " +:+ e, 3000).

Definition load_images (W : World) (w : MainWindow) : MainWindow :=
  let w := send (GET_listing (current_page w)) w in
  match requests_get_listing W (current_page w) with
  | Raised e => show_message (msg_load_failed e).1 (msg_load_failed e).2 w
  | Ok image_urls => add_thumbnails 0 image_urls (set_current_batch image_urls w)
  end.

Definition load_new_batch (W : World) (w : MainWindow) : MainWindow :=
  let w := clear_current_batch w in
  let w := set_current_page (now W `mod` 100) w in
  load_images W w.

Definition load_more_images (W : World) (w : MainWindow) : MainWindow :=
  let w := set_current_page (current_page w + 1) w in
  load_images W w.

(** ** Wallpapers *)

Definition single_path : string := "current_wallpaper.jpg".
Definition collage_path : string := "wallpaper_collage.jpg".

(** [os.path.abspath] of a file name of the program. *)
Definition abspath (W : World) (path : string) : string :=
  cwd W +:+ "/" +:+ path.

Definition recognized (p : string) : bool :=
  bool_decide (p = "linux") || bool_decide (p = "win32")
  || bool_decide (p = "darwin").

Definition msg_system_failed (e : string) : string * Z :=
  ("系统壁纸设置失败: " +:+ e, 3000).

Definition set_system_wallpaper (W : World) (path : string) (w : MainWindow)
  : MainWindow :=
  let path := abspath W path in
  if recognized (platform W) then
    match os_set_background W path with
    | Ok _ => apply_background path w
    | Raised e => show_message (msg_system_failed e).1 (msg_system_failed e).2 w
    end
  else w.

(** [requests.get(url, stream=True, timeout=20)] and [Image.open] of its
    stream. *)
Definition download (W : World) (u : url) : Result Image :=
  content ← requests_get W u;
  size ← identify W content;
  mret (Decoded content size).

Definition msg_single_ok : string * Z := ("壁纸设置成功", 2000).
Definition msg_single_failed (e : string) : string * Z :=
  ("壁纸设置失败: " +:+ e, 3000).

Definition set_single_wallpaper (W : World) (u : url) (w : MainWindow)
  : MainWindow :=
  let w := send (GET_image u) w in
  match download W u with
  | Raised e => show_message (msg_single_failed e).1 (msg_single_failed e).2 w
  | Ok img =>
      match save W img single_path w with
      | (Raised e, w) =>
          show_message (msg_single_failed e).1 (msg_single_failed e).2 w
      | (Ok _, w) =>
          let w := set_system_wallpaper W single_path w in
          show_message msg_single_ok.1 msg_single_ok.2 w
      end
  end.

Definition cell_size : Z * Z := (640, 360).

(** The corner of the cell that [create_collage] gives to the picture of
    index [index]. *)
Definition cell_corner (index : Z) : Z * Z :=
  (640 * (index `mod` 3), 360 * (index `div` 3)).

(** The loop of [create_collage] from the index [index] on: each URL is
    downloaded, opened, shrunk and pasted; the first exception ends it. *)
Fixpoint collage_loop (W : World) (index : Z) (urls : list url)
    (collage : Image) (w : MainWindow) : Result Image * MainWindow :=
  match urls with
  | [] => (Ok collage, w)
  | u :: rest =>
      let w := send (GET_image u) w in
      match download W u with
      | Raised e => (Raised e, w)
      | Ok img =>
          let img := thumbnail img cell_size in
          collage_loop W (index + 1) rest
            (paste collage img (cell_corner index)) w
      end
  end.

Definition msg_collage_ok : string * Z := ("拼图壁纸已生成", 2000).
Definition msg_collage_failed (e : string) : string * Z :=
  ("拼图生成失败: " +:+ e, 3000).

Definition create_collage (W : World) (urls : list url) (w : MainWindow)
  : MainWindow :=
  let collage := New "RGB" (1920, 1080) in
  match collage_loop W 0 (take 9 urls) collage w with
  | (Raised e, w) =>
      show_message (msg_collage_failed e).1 (msg_collage_failed e).2 w
  | (Ok collage, w) =>
      match save W collage collage_path w with
      | (Raised e, w) =>
          show_message (msg_collage_failed e).1 (msg_collage_failed e).2 w
      | (Ok _, w) =>
          let w := set_system_wallpaper W collage_path w in
          show_message msg_collage_ok.1 msg_collage_ok.2 w
      end
  end.

Definition msg_generating : string * Z := ("壁纸生成中...", 2000).

(** [generate_wallpaper]. [selected_images[0]] is read only when the list has
    one element, so the default of the lookup is never used. *)
Definition generate_wallpaper (W : World) (w : MainWindow) : MainWindow :=
  let w := show_message msg_generating.1 msg_generating.2 w in
  let w :=
    if bool_decide (length (selected_images w) = 1%nat) then
      set_single_wallpaper W (default ""%string (selected_images w !! 0%nat)) w
    else
      create_collage W (selected_images w) w in
  timer_start 3600000 w.

(** [update_wallpaper], the slot of the timer. *)
Definition update_wallpaper (W : World) (w : MainWindow) : MainWindow :=
  if bool_decide (selected_images w ≠ []) then generate_wallpaper W w else w.

(** ** Events of the window *)

(** A click on "生成壁纸": a disabled button does not emit [clicked]. *)
Definition click_generate (W : World) (w : MainWindow) : MainWindow :=
  if btn_generate_enabled w then generate_wallpaper W w else w.

(** The timer fires: only a running timer emits [timeout]. *)
Definition timer_timeout (W : World) (w : MainWindow) : MainWindow :=
  match wallpaper_timer w with
  | Some _ => update_wallpaper W w
  | None => w
  end.

(** [MainWindow()] on a host whose disk holds [disk]: the attributes of
    [__init__], the button created by [init_ui] (a new button is enabled),
    the first batch, and a timer that is not started. *)
Definition init (W : World) (disk : gmap string bytes) : MainWindow :=
  load_new_batch W
    {| grid := []; selected_images := []; excluded_urls := [];
       current_page := 1; loaders := []; current_batch := [];
       btn_generate_enabled := true; wallpaper_timer := None;
       shown_messages := []; requests_sent := []; files := disk;
       backgrounds := [] |}.

(** ** Sample hosts *)

(** The first bytes of a PNG stream and of a JPEG stream. *)
Definition png_stream : bytes := [Byte.x89; Byte.x50; Byte.x4e; Byte.x47].
Definition jpeg_stream : bytes := [Byte.xff; Byte.xd8; Byte.xff; Byte.xe0].

(** A host on which every picture but the one at ["down"] downloads as a PNG
    stream of a picture 320 by 240, the encoder answers with a JPEG stream,
    and the listing endpoint answers [listing]. *)
Definition sample_world (listing : Result (list url)) : World :=
  {| requests_get := λ u,
       if bool_decide (u = "down") then Raised "timed out" else Ok png_stream;
     requests_get_listing := λ _, listing;
     identify := λ _, Ok (320, 240);
     encode_jpeg := λ _, Ok jpeg_stream;
     now := 1700000042;
     platform := "linux";
     cwd := "/home/user";
     os_set_background := λ _, Ok () |}.

(** A window that has just been created, with nothing loaded in it. *)
Definition blank : MainWindow :=
  {| grid := []; selected_images := []; excluded_urls := [];
     current_page := 1; loaders := []; current_batch := [];
     btn_generate_enabled := true; wallpaper_timer := None;
     shown_messages := []; requests_sent := []; files := ∅;
     backgrounds := [] |}.

Definition ten_urls : list url :=
  ["p0"; "p1"; "p2"; "p3"; "p4"; "p5"; "p6"; "p7"; "p8"; "p9"].

(** ** Notions used in the statements *)

(** Several calls of [requests.get] in a row. *)
Definition sends (rs : list Request) (w : MainWindow) : MainWindow :=
  {| grid := grid w;
     selected_images := selected_images w;
     excluded_urls := excluded_urls w;
     current_page := current_page w;
     loaders := loaders w;
     current_batch := current_batch w;
     btn_generate_enabled := btn_generate_enabled w;
     wallpaper_timer := wallpaper_timer w;
     shown_messages := shown_messages w;
     requests_sent := requests_sent w ++ rs;
     files := files w;
     backgrounds := backgrounds w |}.

(** The labels that [load_images] adds for a listing, from the position [i]
    on, and the loaders it starts when the grid holds [n] items. *)
Fixpoint new_thumbnails (i : Z) (image_urls : list url) : list Thumbnail :=
  match image_urls with
  | [] => []
  | u :: rest =>
      {| th_url := u; th_row := i `div` 3; th_col := i `mod` 3;
         th_style := style_placeholder |} :: new_thumbnails (i + 1) rest
  end.

Fixpoint new_loaders (n : nat) (image_urls : list url) : list ImageLoader :=
  match image_urls with
  | [] => []
  | u :: rest => new_loader n u :: new_loaders (S n) rest
  end.

(** The pictures of a collage and their corners, from the index [index] on. *)
Fixpoint cells (index : Z) (imgs : list Image) : list (Image * (Z * Z)) :=
  match imgs with
  | [] => []
  | img :: rest =>
      (thumbnail img cell_size, cell_corner index) :: cells (index + 1) rest
  end.

(** The canvas of [create_collage] before the first paste. *)
Definition blank_canvas : Image := New "RGB" (1920, 1080).

(** [advances w w']: from [w] to [w'] the selection, the exclusions and the
    button are kept and messages are only added. *)
Definition advances (w w' : MainWindow) : Prop :=
  selected_images w' = selected_images w
  ∧ excluded_urls w' = excluded_urls w
  ∧ btn_generate_enabled w' = btn_generate_enabled w
  ∧ ∃ extra, shown_messages w' = shown_messages w ++ extra.

(** ** The other handlers of the window *)

(** [closeEvent]: every loader is stopped and the event is accepted. *)
Definition closeEvent (w : MainWindow) : MainWindow :=
  set_loaders (stop <$> loaders w) w.

(** [event.type()], as far as [eventFilter] tells events apart. *)
Inductive QEventType : Type := MouseMove | OtherEvent.

(** [eventFilter] on an event of the viewport, when the vertical scroll bar
    reads [value] and its maximum is [maximum]. *)
Definition eventFilter (W : World) (ty : QEventType) (value maximum : Z)
    (w : MainWindow) : MainWindow :=
  match ty with
  | MouseMove =>
      if bool_decide (value = maximum) then load_more_images W w else w
  | OtherEvent => w
  end.

(** What reaches the window: a press on the label that is item [i] of the
    grid, a click on one of the two buttons, an event of the viewport, a
    timeout of the timer, the closing of the window. *)
Inductive Action : Type :=
| PressThumbnail (i : nat)
| PressRefresh
| PressGenerate
| ViewportEvent (ty : QEventType) (value maximum : Z)
| TimerTimeout
| CloseWindow.

Definition handle (W : World) (a : Action) (w : MainWindow) : MainWindow :=
  match a with
  | PressThumbnail i =>
      match grid w !! i with
      | Some t => toggle_selection (th_url t) w
      | None => w
      end
  | PressRefresh => load_new_batch W w
  | PressGenerate => click_generate W w
  | ViewportEvent ty value maximum => eventFilter W ty value maximum w
  | TimerTimeout => timer_timeout W w
  | CloseWindow => closeEvent w
  end.

(** A session: the actions in the order they arrive, each with what the
    collaborators answer while it is handled. *)
Fixpoint run_actions (steps : list (World * Action)) (w : MainWindow)
  : MainWindow :=
  match steps with
  | [] => w
  | (W, a) :: rest => run_actions rest (handle W a w)
  end.

(** [outside paths w w']: from [w] to [w'] the grid, the loaders, the batch
    and the page are kept, and so is every file that is not in [paths]. *)
Definition outside (paths : list string) (w w' : MainWindow) : Prop :=
  grid w' = grid w
  ∧ loaders w' = loaders w
  ∧ current_batch w' = current_batch w
  ∧ current_page w' = current_page w
  ∧ ∀ p, p ∉ paths → files w' !! p = files w !! p.

(** The loaders and the labels of the grid go in pairs: loader [i] loads
    the URL of item [i] for the label [i]. *)
Definition paired (w : MainWindow) : Prop :=
  loader_url <$> loaders w = th_url <$> grid w
  ∧ label <$> loaders w = seq 0 (length (grid w)).

(** What holds of a window throughout a session that started on a host
    whose disk held [disk]. *)
Definition window_ok (disk : gmap string bytes) (w : MainWindow) : Prop :=
  selection_ok (selected_images w)
  ∧ excluded_urls w = []
  ∧ (selected_images w ≠ [] → btn_generate_enabled w = true)
  ∧ (wallpaper_timer w = None ∨ wallpaper_timer w = Some 3600000)
  ∧ (∀ p, p ≠ single_path → p ≠ collage_path → files w !! p = disk !! p)
  ∧ paired w.

(** The sample host with a desktop that refuses the background. *)
Definition refusing_world : World :=
  {| requests_get := requests_get (sample_world (Ok []));
     requests_get_listing := requests_get_listing (sample_world (Ok []));
     identify := identify (sample_world (Ok []));
     encode_jpeg := encode_jpeg (sample_world (Ok []));
     now := now (sample_world (Ok []));
     platform := "win32";
     cwd := "C:/Users/user";
     os_set_background := λ _, Raised "access denied" |}.

(** The sample host on a platform that the program does not know. *)
Definition freebsd_world : World :=
  {| requests_get := requests_get (sample_world (Ok []));
     requests_get_listing := requests_get_listing (sample_world (Ok []));
     identify := identify (sample_world (Ok []));
     encode_jpeg := encode_jpeg (sample_world (Ok []));
     now := now (sample_world (Ok []));
     platform := "freebsd13";
     cwd := "/home/user";
     os_set_background := λ _, Ok () |}.

(** * Properties *)

(** ** The selection *)

Section Selection.

Implicit Types (u x : url) (l : list url) (w : MainWindow).

Lemma list_remove_app_new x l : x ∉ l → list_remove x (l ++ [x]) = l.
Proof.
  induction l as [|y l IH]; simpl; intros Hn.
  - by rewrite decide_True.
  - apply not_elem_of_cons in Hn as [Hne Hn].
    destruct (decide (y = x)); [congruence|]. by rewrite IH.
Qed.

Lemma list_remove_perm x l : x ∈ l → l ≡ₚ x :: list_remove x l.
Proof.
  induction l as [|y l IH]; simpl; intros Hin.
  - by apply elem_of_nil in Hin.
  - destruct (decide (y = x)) as [->|Hne]; [done|].
    apply elem_of_cons in Hin as [?|Hin]; [congruence|].
    rewrite (IH Hin) at 1. apply Permutation_swap.
Qed.

Lemma list_remove_length x l :
  x ∈ l → S (length (list_remove x l)) = length l.
Proof.
  intros Hin. apply list_remove_perm in Hin.
  by rewrite (Permutation_length Hin).
Qed.

Lemma list_remove_NoDup x l :
  NoDup l → x ∈ l → NoDup (list_remove x l) ∧ x ∉ list_remove x l.
Proof.
  intros Hnd Hin. pose proof (list_remove_perm x l Hin) as Hp.
  rewrite Hp in Hnd. apply NoDup_cons in Hnd. tauto.
Qed.

Lemma snoc_neq {A} (l : list A) (a : A) : l ++ [a] ≠ l.
Proof.
  intros Heq. apply (f_equal length) in Heq.
  rewrite length_app in Heq. simpl in Heq. lia.
Qed.

Ltac snoc_absurd H :=
  exfalso;
  first [exact (snoc_neq _ _ (eq_sym H)) | exact (snoc_neq _ _ H)].

(** The four outcomes of a click, on the selection and on the messages. *)
Lemma toggle_selection_cases u w :
  let w' := toggle_selection u w in
  (u ∈ excluded_urls w ∧ w' = w)
  ∨ ((u ∉ excluded_urls w) ∧ u ∈ selected_images w
     ∧ selected_images w' = list_remove u (selected_images w)
     ∧ shown_messages w' = shown_messages w)
  ∨ ((u ∉ excluded_urls w) ∧ (u ∉ selected_images w)
     ∧ (10 ≤ length (selected_images w))%nat
     ∧ w' = show_message msg_capacity.1 msg_capacity.2 w)
  ∨ ((u ∉ excluded_urls w) ∧ (u ∉ selected_images w)
     ∧ (length (selected_images w) < 10)%nat
     ∧ selected_images w' = selected_images w ++ [u]
     ∧ shown_messages w' = shown_messages w).
Proof.
  unfold toggle_selection. simpl.
  case_bool_decide as He; [by left|]. right.
  case_bool_decide as Hs; [by left|]. right.
  case_bool_decide as Hc; [left|right]; repeat split; auto; lia.
Qed.

Lemma excluded_toggle_selection u w :
  excluded_urls (toggle_selection u w) = excluded_urls w.
Proof.
  unfold toggle_selection. repeat case_bool_decide; done.
Qed.

Lemma selection_ok_toggle u w :
  selection_ok (selected_images w) →
  selection_ok (selected_images (toggle_selection u w)).
Proof.
  intros [Hnd Hlen].
  destruct (toggle_selection_cases u w)
    as [[_ ->]|[(_ & Hin & -> & _)|[(_ & _ & _ & ->)|(_ & Hn & Hlt & -> & _)]]];
    try done.
  - split; [by apply list_remove_NoDup|].
    pose proof (list_remove_length u _ Hin). lia.
  - split.
    + apply NoDup_app. repeat split; [done| |apply NoDup_singleton].
      intros x Hx Hx'. apply list_elem_of_singleton in Hx'. by subst.
    + rewrite length_app. simpl. lia.
Qed.

Lemma toggle_all_snoc us u w :
  toggle_all (us ++ [u]) w = toggle_selection u (toggle_all us w).
Proof. unfold toggle_all. by rewrite foldl_app. Qed.

Lemma selection_ok_toggle_all us w :
  selection_ok (selected_images w) →
  selection_ok (selected_images (toggle_all us w)).
Proof.
  intros Hok. induction us as [|u us IH] using rev_ind; [done|].
  rewrite toggle_all_snoc. by apply selection_ok_toggle.
Qed.

(** C1. Along every run of [toggle_selection] calls that starts with nothing
    selected, the selection holds at most ten URLs before and after each
    call; a call shows the capacity message exactly when its URL is neither
    excluded nor selected while ten URLs are selected, it shows nothing
    otherwise, and a call that shows the message leaves the selection as it
    was. *)
Theorem toggle_selection_capacity (w0 : MainWindow) (us : list url) (u : url) :
  selected_images w0 = [] →
  let w := toggle_all us w0 in
  let w' := toggle_selection u w in
  (length (selected_images w) ≤ 10)%nat
  ∧ (length (selected_images w') ≤ 10)%nat
  ∧ (shown_messages w' = shown_messages w ++ [msg_capacity]
     ↔ (u ∉ excluded_urls w) ∧ (u ∉ selected_images w)
       ∧ length (selected_images w) = 10%nat)
  ∧ (shown_messages w' = shown_messages w ++ [msg_capacity]
     ∨ shown_messages w' = shown_messages w)
  ∧ (shown_messages w' = shown_messages w ++ [msg_capacity] →
     selected_images w' = selected_images w).
Proof.
  intros H0. cbv zeta. set (w := toggle_all us w0).
  assert (Hok : selection_ok (selected_images w)).
  { apply selection_ok_toggle_all. rewrite H0. split; [constructor|simpl; lia]. }
  pose proof (selection_ok_toggle u w Hok) as Hok'.
  destruct Hok as [_ Hlen], Hok' as [_ Hlen'].
  split; [done|]. split; [done|].
  destruct (toggle_selection_cases u w)
    as [[He Hw]|[(He & Hin & Hs & Hm)|[(He & Hn & Hc & Hw)|(He & Hn & Hlt & Hs & Hm)]]].
  - rewrite Hw. split; [|split; [by right|done]].
    split; [intros Hm; snoc_absurd Hm|tauto].
  - rewrite Hm. split; [|split; [by right|]].
    + split; [intros Hm'; snoc_absurd Hm'|tauto].
    + intros Hm'. snoc_absurd Hm'.
  - rewrite Hw. simpl. split; [|split; [by left|done]].
    split; [intros _; repeat split; [done|done|lia]|done].
  - rewrite Hm. split; [|split; [by right|]].
    + split; [intros Hm'; snoc_absurd Hm'|lia].
    + intros Hm'. snoc_absurd Hm'.
Qed.

(** With ten URLs selected, a click on an eleventh shows the message. *)
Lemma toggle_selection_capacity_witness :
  selected_images blank = []
  ∧ shown_messages (toggle_selection "p10" (toggle_all ten_urls blank))
    = shown_messages (toggle_all ten_urls blank) ++ [msg_capacity].
Proof.
  split; [reflexivity|].
  apply (toggle_selection_capacity blank ten_urls "p10" eq_refl).
  split; [|split; [|reflexivity]];
    refine (bool_decide_unpack _ _); vm_compute; exact I.
Defined.

(** C9, as the claim states it: it fails for a URL that is selected and is
    not the last one selected. After the clicks on ["a"] and ["b"], two
    more clicks on ["a"] leave ["b"; "a"] selected. *)
Lemma toggle_twice_reorders :
  ¬ (∀ (us : list url) (u : url),
       let w := toggle_all us blank in
       selected_images (toggle_selection u (toggle_selection u w))
       = selected_images w).
Proof.
  intros H. specialize (H ["a"; "b"] "a"). vm_compute in H. discriminate H.
Qed.

(** C9, amended. For a selection without duplicates of at most ten URLs,
    two clicks in a row on the same URL leave the same URLs selected: the
    selection is the list it was when the URL is excluded or was not
    selected, and otherwise the list it was with the URL moved to the
    end. *)
Theorem toggle_twice_same_members (w : MainWindow) (u : url) :
  selection_ok (selected_images w) →
  let w2 := toggle_selection u (toggle_selection u w) in
  selected_images w2 ≡ₚ selected_images w
  ∧ (∀ x, x ∈ selected_images w2 ↔ x ∈ selected_images w)
  ∧ (u ∈ excluded_urls w ∨ u ∉ selected_images w →
     selected_images w2 = selected_images w)
  ∧ ((u ∉ excluded_urls w) → u ∈ selected_images w →
     selected_images w2 = list_remove u (selected_images w) ++ [u]).
Proof.
  intros [Hnd Hlen]. cbv zeta.
  set (w2 := toggle_selection u (toggle_selection u w)).
  assert (Hcases :
    (selected_images w2 = selected_images w
     ∧ (u ∈ excluded_urls w ∨ u ∉ selected_images w))
    ∨ (selected_images w2 = list_remove u (selected_images w) ++ [u]
       ∧ (u ∉ excluded_urls w) ∧ u ∈ selected_images w)).
  { subst w2.
    destruct (toggle_selection_cases u w)
      as [[He Hw]|[(He & Hin & Hs & Hm)|[(He & Hn & Hc & Hw)|(He & Hn & Hlt & Hs & Hm)]]].
    - left. rewrite !Hw. split; [done|by left].
    - right. split; [|done].
      destruct (list_remove_NoDup u _ Hnd Hin) as [_ Hout].
      pose proof (list_remove_length u _ Hin) as Hl.
      destruct (toggle_selection_cases u (toggle_selection u w))
        as [[He' _]|[(_ & Hin' & _)|[(_ & _ & Hc' & _)|(_ & _ & _ & Hs' & _)]]].
      + by rewrite excluded_toggle_selection in He'.
      + by rewrite Hs in Hin'.
      + rewrite Hs in Hc'. lia.
      + by rewrite Hs', Hs.
    - left. split; [|by right].
      rewrite Hw.
      destruct (toggle_selection_cases u (show_message msg_capacity.1 msg_capacity.2 w))
        as [[He' _]|[(_ & Hin' & _)|[(_ & _ & _ & ->)|(_ & _ & Hlt' & _)]]];
        simpl in *; try done. lia.
    - left. split; [|by right].
      destruct (toggle_selection_cases u (toggle_selection u w))
        as [[He' _]|[(_ & _ & Hs' & _)|[(_ & Hn' & _)|(_ & Hn' & _)]]].
      + by rewrite excluded_toggle_selection in He'.
      + rewrite Hs', Hs. by apply list_remove_app_new.
      + rewrite Hs in Hn'. exfalso. apply Hn'. set_solver.
      + rewrite Hs in Hn'. exfalso. apply Hn'. set_solver. }
  assert (Hperm : selected_images w2 ≡ₚ selected_images w).
  { destruct Hcases as [[-> _]|(-> & _ & Hin)]; [done|].
    rewrite (list_remove_perm u (selected_images w) Hin) at 2.
    by rewrite Permutation_app_comm. }
  split; [done|]. split; [intros x; by rewrite Hperm|]. split.
  - intros Hor. destruct Hcases as [[-> _]|(_ & He & Hin)]; [done|tauto].
  - intros He Hin. destruct Hcases as [[_ Hor]|[-> _]]; [tauto|done].
Qed.

(** Two clicks on ["p0"], the first of ten selected URLs. *)
Lemma toggle_twice_same_members_witness :
  selection_ok ten_urls
  ∧ selected_images
      (toggle_selection "p0"
         (toggle_selection "p0" (set_selected_images ten_urls blank)))
    ≡ₚ ten_urls.
Proof.
  assert (Hok : selection_ok ten_urls).
  { split; [|simpl; lia]. refine (bool_decide_unpack _ _). vm_compute. exact I. }
  split; [exact Hok|].
  apply (toggle_twice_same_members (set_selected_images ten_urls blank) "p0" Hok).
Defined.

End Selection.

(** ** The loader thread *)

Section Loader.

Variable loadFromData : bytes → bool.

Implicit Types (l : ImageLoader) (evs : list Event).

Lemma exec_app evs1 evs2 l :
  exec loadFromData (evs1 ++ evs2) l
  = let '(l1, out1) := exec loadFromData evs1 l in
    let '(l2, out2) := exec loadFromData evs2 l1 in
    (l2, out1 ++ out2).
Proof.
  revert l. induction evs1 as [|ev evs1 IH]; intros l; simpl.
  - by destruct (exec loadFromData evs2 l).
  - destruct (step loadFromData ev l) as [l1 out1].
    rewrite IH.
    destruct (exec loadFromData evs1 l1) as [l2 out2].
    destruct (exec loadFromData evs2 l2) as [l3 out3].
    by rewrite app_assoc.
Qed.

(** A step never sets the flag again, and a loader that is stopped before
    its thread has passed the test never emits [loaded]. *)
Lemma step_stopped ev l :
  _is_running l = false → (∀ p, phase l ≠ Tested p) →
  _is_running (step loadFromData ev l).1 = false
  ∧ (∀ p, phase (step loadFromData ev l).1 ≠ Tested p)
  ∧ Forall (λ s, is_loaded s = false) (step loadFromData ev l).2.
Proof.
  intros Hstop Hph. unfold step.
  destruct ev as [|[content|e]| |], (phase l) eqn:Hp; simpl;
    rewrite ?Hp; try (split_and!; [done|congruence|by auto]).
  - unfold run_enter. rewrite Hstop. simpl. split_and!; [done|done|auto].
  - rewrite Hstop, andb_false_r. simpl. split_and!; [done|done|auto].
  - by destruct (Hph pixmap).
Qed.

Lemma exec_stopped evs l :
  _is_running l = false → (∀ p, phase l ≠ Tested p) →
  Forall (λ s, is_loaded s = false) (exec loadFromData evs l).2.
Proof.
  revert l. induction evs as [|ev evs IH]; intros l Hstop Hph; simpl;
    [constructor|].
  destruct (step_stopped ev l Hstop Hph) as (Hrun & Hph' & Hout).
  destruct (step loadFromData ev l) as [l1 out1]. simpl in *.
  specialize (IH l1 Hrun Hph').
  destruct (exec loadFromData evs l1) as [l2 out2]. simpl in *.
  by apply Forall_app.
Qed.

(** After a [stop()] that comes before the thread has passed the test, the
    [loaded] signal is never emitted, whatever happens to the loader before
    and after. *)
Lemma no_loaded_after_stop evs1 evs2 l :
  (∀ p, phase (exec loadFromData evs1 l).1 ≠ Tested p) →
  Forall (λ s, is_loaded s = false)
    (exec loadFromData (StopCalled :: evs2) (exec loadFromData evs1 l).1).2.
Proof.
  set (l1 := (exec loadFromData evs1 l).1). intros Hph. simpl.
  pose proof (exec_stopped evs2 (stop l1) eq_refl Hph) as Hout.
  by destruct (exec loadFromData evs2 (stop l1)).
Qed.

(** A loader that is stopped before its thread reaches [run] emits no
    signal at all. *)
Lemma stopped_before_run_silent evs l :
  _is_running l = false → phase l = Started ∨ phase l = Finished →
  (exec loadFromData evs l).2 = [].
Proof.
  revert l. induction evs as [|ev evs IH]; intros l Hstop Hph; simpl; [done|].
  assert (Hstep : (step loadFromData ev l).2 = []
                  ∧ _is_running (step loadFromData ev l).1 = false
                  ∧ (phase (step loadFromData ev l).1 = Started
                     ∨ phase (step loadFromData ev l).1 = Finished)).
  { unfold step, run_enter.
    destruct Hph as [Hp|Hp]; rewrite Hp; destruct ev as [|r| |];
      rewrite ?Hstop; simpl; split_and!; auto. }
  destruct Hstep as (Hout & Hrun & Hph').
  destruct (step loadFromData ev l) as [l1 out1]. simpl in *. subst out1.
  specialize (IH l1 Hrun Hph').
  destruct (exec loadFromData evs l1) as [l2 out2]. simpl in *. done.
Qed.

(** C4, on the schedule "the thread enters [run], the window calls
    [stop()], the request completes". Nothing has been emitted when
    [stop()] is called, and the completion of the request emits [error]:
    with the text for invalid data when the body arrived, whether or not
    it decodes, and with the text for a failed load when the request
    raised. *)
Theorem stop_during_request_emits_error (lbl : nat) (u : url)
    (content : bytes) (e : string) :
  (exec loadFromData [RunEnters] (new_loader lbl u)).2 = []
  ∧ (exec loadFromData
       [RunEnters; StopCalled; RequestCompletes (Ok content)]
       (new_loader lbl u)).2
    = [error ("无效的图片数据: " +:+ u)]
  ∧ (exec loadFromData
       [RunEnters; StopCalled; RequestCompletes (Raised e)]
       (new_loader lbl u)).2
    = [error ("加载失败: " +:+ u +:+ " - " +:+ e)].
Proof.
  repeat split; simpl.
  by rewrite andb_false_r.
Qed.

End Loader.

(** ** Batches *)

Section Batches.

Implicit Types (W : World) (w : MainWindow).

(** The loop of [load_images] appends labels and loaders and changes
    nothing else. *)
Lemma add_thumbnails_eq i image_urls w :
  add_thumbnails i image_urls w
  = set_grid (grid w ++ new_thumbnails i image_urls)
      (set_loaders (loaders w ++ new_loaders (length (grid w)) image_urls) w).
Proof.
  revert i w. induction image_urls as [|u rest IH]; intros i w; simpl.
  - destruct w; unfold set_grid, set_loaders; simpl. by rewrite !app_nil_r.
  - rewrite IH. unfold add_image_thumbnail, set_grid, set_loaders; simpl.
    rewrite length_app, <- !app_assoc. simpl.
    by replace (length (grid w) + 1)%nat with (S (length (grid w))) by lia.
Qed.

(** [load_images] when the listing arrives. *)
Lemma load_images_success W w image_urls :
  requests_get_listing W (current_page w) = Ok image_urls →
  load_images W w
  = set_grid (grid w ++ new_thumbnails 0 image_urls)
      (set_loaders (loaders w ++ new_loaders (length (grid w)) image_urls)
         (set_current_batch image_urls (send (GET_listing (current_page w)) w))).
Proof.
  intros Hget. unfold load_images. simpl. rewrite Hget.
  by rewrite add_thumbnails_eq.
Qed.

(** [load_images] when the listing request raises. *)
Lemma load_images_failure W w e :
  requests_get_listing W (current_page w) = Raised e →
  load_images W w
  = show_message (msg_load_failed e).1 (msg_load_failed e).2
      (send (GET_listing (current_page w)) w).
Proof. intros Hget. unfold load_images. simpl. by rewrite Hget. Qed.

(** [load_more_images] when the listing arrives: the page index is one
    more, loaders and labels are appended, the new labels take the cells
    from the first one on, and [current_batch] is the new listing. *)
Lemma load_more_images_success W w image_urls :
  requests_get_listing W (current_page w + 1) = Ok image_urls →
  let w' := load_more_images W w in
  current_page w' = current_page w + 1
  ∧ current_batch w' = image_urls
  ∧ loaders w' = loaders w ++ new_loaders (length (grid w)) image_urls
  ∧ grid w' = grid w ++ new_thumbnails 0 image_urls.
Proof.
  intros Hget. unfold load_more_images. cbv zeta.
  by rewrite (load_images_success W _ image_urls).
Qed.

(** Loading changes neither the selection, the button nor the timer. *)
Lemma load_images_frame W w :
  let w' := load_images W w in
  selected_images w' = selected_images w
  ∧ excluded_urls w' = excluded_urls w
  ∧ btn_generate_enabled w' = btn_generate_enabled w
  ∧ wallpaper_timer w' = wallpaper_timer w
  ∧ files w' = files w.
Proof.
  unfold load_images. simpl.
  destruct (requests_get_listing W (current_page w)); [|done].
  by rewrite add_thumbnails_eq.
Qed.

(** C6, as the claim states it: it fails for [load_new_batch]. A window
    that shows a batch of two pictures has an empty grid and an empty
    batch after a refresh whose listing request times out. *)
Lemma load_new_batch_failure_clears_grid :
  ¬ (∀ W w e,
       requests_get_listing W (now W `mod` 100) = Raised e →
       grid (load_new_batch W w) = grid w
       ∧ current_batch (load_new_batch W w) = current_batch w).
Proof.
  intros H.
  destruct (H (sample_world (Raised "timed out"))
              (init (sample_world (Ok ["a"; "b"])) ∅) "timed out" eq_refl)
    as [Hgrid _].
  vm_compute in Hgrid. discriminate Hgrid.
Qed.

(** C6, amended. When the listing request raises, the message for a failed
    load is shown for three seconds and no label is added. After
    [load_more_images] the grid, the batch, the loaders and the selection
    are what they were, and the page index is one more. After
    [load_new_batch] the grid, the batch and the loaders are empty, since
    they are cleared before the request is sent. *)
Theorem listing_failure (W : World) (w : MainWindow) (e : string) :
  (requests_get_listing W (current_page w + 1) = Raised e →
   let w' := load_more_images W w in
   shown_messages w' = shown_messages w ++ [msg_load_failed e]
   ∧ grid w' = grid w
   ∧ current_batch w' = current_batch w
   ∧ loaders w' = loaders w
   ∧ selected_images w' = selected_images w
   ∧ current_page w' = current_page w + 1)
  ∧ (requests_get_listing W (now W `mod` 100) = Raised e →
     let w' := load_new_batch W w in
     shown_messages w' = shown_messages w ++ [msg_load_failed e]
     ∧ grid w' = []
     ∧ current_batch w' = []
     ∧ loaders w' = []
     ∧ selected_images w' = selected_images w
     ∧ current_page w' = now W `mod` 100).
Proof.
  split; intros Hget; cbv zeta.
  - unfold load_more_images. cbv zeta.
    by rewrite (load_images_failure W _ e).
  - unfold load_new_batch. cbv zeta.
    by rewrite (load_images_failure W _ e).
Qed.

(** A window showing two pictures, and a listing that times out. *)
Lemma listing_failure_witness :
  let W := sample_world (Raised "timed out") in
  let w := init (sample_world (Ok ["a"; "b"])) ∅ in
  requests_get_listing W (current_page w + 1) = Raised "timed out"
  ∧ requests_get_listing W (now W `mod` 100) = Raised "timed out"
  ∧ grid (load_more_images W w) = grid w
  ∧ grid (load_new_batch W w) = [].
Proof.
  intros W w.
  pose proof (listing_failure W w "timed out") as [Hmore Hnew].
  split; [reflexivity|]. split; [reflexivity|]. split.
  - exact (proj1 (proj2 (Hmore eq_refl))).
  - exact (proj1 (proj2 (Hnew eq_refl))).
Defined.

(** C7, on a window that shows the batch ["a"; "b"] when the next listing
    is ["c"]. The page index is one more and the loaders and the labels
    of ["a"] and ["b"] are kept, but [current_batch] holds ["c"] alone,
    and the label of ["c"] is added at the cell of the label of ["a"]. *)
Theorem load_more_images_replaces_batch :
  let w := init (sample_world (Ok ["a"; "b"])) ∅ in
  let w' := load_more_images (sample_world (Ok ["c"])) w in
  current_batch w = ["a"; "b"]
  ∧ current_batch w' = ["c"]
  ∧ current_page w' = current_page w + 1
  ∧ loader_url <$> loaders w' = ["a"; "b"; "c"]
  ∧ th_url <$> grid w' = ["a"; "b"; "c"]
  ∧ (λ t, (th_row t, th_col t)) <$> grid w' = [(0, 0); (0, 1); (0, 0)].
Proof. vm_compute. repeat split. Qed.

End Batches.

(** ** Pictures *)

Section Pictures.

Lemma round_aspect_le num den closer bound :
  0 ≤ den → num ≤ bound * den → 1 ≤ bound →
  round_aspect num den closer ≤ bound.
Proof.
  intros Hden Hnum Hb. unfold round_aspect.
  destruct (decide (den = 0)) as [->|Hne].
  - rewrite !Z.div_0_r. destruct (closer 0 (- 0)); lia.
  - assert (num `div` den ≤ bound) by (apply Z.div_le_upper_bound; lia).
    assert (- bound ≤ (- num) `div` den) by (apply Z.div_le_lower_bound; lia).
    destruct (closer _ _); lia.
Qed.

(** A thumbnail is never larger than the box that was asked for. *)
Lemma thumbnail_size_le size box :
  1 ≤ box.1 → 1 ≤ box.2 →
  (thumbnail_size size box).1 ≤ box.1 ∧ (thumbnail_size size box).2 ≤ box.2.
Proof.
  destruct size as [w h], box as [x y]. simpl. intros Hx Hy.
  unfold thumbnail_size.
  destruct (bool_decide (w ≤ x) && bool_decide (h ≤ y)) eqn:Hfit.
  - apply andb_true_iff in Hfit as [Hw Hh].
    apply bool_decide_eq_true in Hw, Hh. simpl. lia.
  - assert (Hbig : x < w ∨ y < h).
    { apply andb_false_iff in Hfit as [Hf|Hf];
        apply bool_decide_eq_false in Hf; lia. }
    clear Hfit. case_bool_decide as Hratio; simpl.
    + split; [|lia]. apply round_aspect_le; [|lia|lia].
      destruct (decide (0 ≤ h)) as [|Hneg]; [done|exfalso].
      assert (x * h ≤ 0) by nia. assert (0 < w * y) by nia. lia.
    + split; [lia|]. apply round_aspect_le; [|lia|lia].
      destruct (decide (0 ≤ w)) as [|Hneg]; [done|exfalso].
      assert (w * y ≤ 0) by nia. assert (0 < x * h) by nia. lia.
Qed.

Lemma round_aspect_close num den closer :
  0 < num → 0 < den →
  1 ≤ round_aspect num den closer
  ∧ Z.abs (round_aspect num den closer * den - num) < den.
Proof.
  intros Hnum Hden. unfold round_aspect.
  pose proof (Z.div_mod num den ltac:(lia)) as Hf.
  pose proof (Z.mod_pos_bound num den Hden) as Hfr.
  pose proof (Z.div_mod (- num) den ltac:(lia)) as Hc.
  pose proof (Z.mod_pos_bound (- num) den Hden) as Hcr.
  assert (0 ≤ num `div` den) by (apply Z.div_pos; lia).
  destruct (closer _ _); nia.
Qed.

(** A thumbnail of a picture that does not fit in the box is not larger
    than the picture, it has the height or the width of the box, and its
    other side is the proportional length rounded down or up to a whole
    pixel. *)
Lemma thumbnail_size_shrinks w h x y :
  0 < w → 0 < h → 1 ≤ x → 1 ≤ y →
  (thumbnail_size (w, h) (x, y)).1 ≤ w
  ∧ (thumbnail_size (w, h) (x, y)).2 ≤ h
  ∧ (x < w ∨ y < h →
     ((thumbnail_size (w, h) (x, y)).2 = y
      ∧ Z.abs ((thumbnail_size (w, h) (x, y)).1 * h - y * w) < h)
     ∨ ((thumbnail_size (w, h) (x, y)).1 = x
        ∧ Z.abs ((thumbnail_size (w, h) (x, y)).2 * w - x * h) < w)).
Proof.
  intros Hw Hh Hx Hy. unfold thumbnail_size.
  destruct (bool_decide (w ≤ x) && bool_decide (h ≤ y)) eqn:Hfit.
  - apply andb_true_iff in Hfit as [Hwx Hhy].
    apply bool_decide_eq_true in Hwx, Hhy. simpl. split_and!; lia.
  - assert (Hbig : x < w ∨ y < h).
    { apply andb_false_iff in Hfit as [Hf|Hf];
        apply bool_decide_eq_false in Hf; lia. }
    clear Hfit. case_bool_decide as Hratio; simpl.
    + assert (y < h) by nia.
      match goal with |- context [round_aspect ?n ?d ?c] =>
        pose proof (round_aspect_le n d c w ltac:(lia) ltac:(nia) ltac:(lia));
        destruct (round_aspect_close n d c ltac:(nia) ltac:(lia)) as [? ?]
      end.
      split_and!; [lia|lia|]. intros _. left. split; [done|lia].
    + assert (x < w) by nia.
      match goal with |- context [round_aspect ?n ?d ?c] =>
        pose proof (round_aspect_le n d c h ltac:(lia) ltac:(nia) ltac:(lia));
        destruct (round_aspect_close n d c ltac:(nia) ltac:(lia)) as [? ?]
      end.
      split_and!; [lia|lia|]. intros _. right. split; [done|lia].
Qed.

(** A picture that fits in the box keeps its size. *)
Lemma thumbnail_size_fits w h x y :
  w ≤ x → h ≤ y → thumbnail_size (w, h) (x, y) = (w, h).
Proof.
  intros Hw Hh. unfold thumbnail_size.
  by rewrite !bool_decide_eq_true_2 by done.
Qed.

Lemma im_size_thumbnail im box :
  im_size (thumbnail im box) = thumbnail_size (im_size im) box.
Proof. unfold thumbnail. case_bool_decide as Heq; [by rewrite Heq|done]. Qed.

Lemma thumbnail_fits im :
  (im_size im).1 ≤ 640 → (im_size im).2 ≤ 360 → thumbnail im (640, 360) = im.
Proof.
  intros Hw Hh. unfold thumbnail.
  destruct (im_size im) as [w h]. simpl in Hw, Hh.
  rewrite thumbnail_size_fits by done. by rewrite bool_decide_eq_true_2.
Qed.

Lemma thumbnail_in_cell im :
  (im_size (thumbnail im (640, 360))).1 ≤ 640
  ∧ (im_size (thumbnail im (640, 360))).2 ≤ 360.
Proof.
  rewrite im_size_thumbnail.
  apply (thumbnail_size_le (im_size im) (640, 360)); simpl; lia.
Qed.

Lemma thumbnail_shrinks im :
  0 < (im_size im).1 → 0 < (im_size im).2 →
  (im_size (thumbnail im (640, 360))).1 ≤ (im_size im).1
  ∧ (im_size (thumbnail im (640, 360))).2 ≤ (im_size im).2
  ∧ (640 < (im_size im).1 ∨ 360 < (im_size im).2 →
     ((im_size (thumbnail im (640, 360))).2 = 360
      ∧ Z.abs ((im_size (thumbnail im (640, 360))).1 * (im_size im).2
               - 360 * (im_size im).1) < (im_size im).2)
     ∨ ((im_size (thumbnail im (640, 360))).1 = 640
        ∧ Z.abs ((im_size (thumbnail im (640, 360))).2 * (im_size im).1
                 - 640 * (im_size im).2) < (im_size im).1)).
Proof.
  intros Hw Hh. rewrite im_size_thumbnail.
  destruct (im_size im) as [w h]. simpl in Hw, Hh.
  apply (thumbnail_size_shrinks w h 640 360); lia.
Qed.

(** Ties of the two candidates, as PIL decides them. *)
Example thumbnail_size_ties :
  thumbnail_size (1013, 720) (640, 360) = (507, 360)
  ∧ thumbnail_size (5, 400) (640, 360) = (5, 360)
  ∧ thumbnail_size (650, 33) (640, 360) = (640, 33).
Proof. vm_compute. by split_and!. Qed.

(** A picture of 5000 by 3333 pixels becomes one of 540 by 360. *)
Example thumbnail_size_landscape :
  thumbnail_size (5000, 3333) (640, 360) = (540, 360).
Proof. by vm_compute. Qed.

Lemma cells_lookup index imgs (i : nat) :
  cells index imgs !! i
  = (λ img, (thumbnail img cell_size, cell_corner (index + Z.of_nat i)))
      <$> imgs !! i.
Proof.
  revert index i. induction imgs as [|img rest IH]; intros index i; [done|].
  destruct i as [|i]; simpl.
  - by rewrite Z.add_0_r.
  - rewrite IH. by replace (index + 1 + Z.of_nat i) with (index + Z.of_nat (S i)) by lia.
Qed.

Lemma cells_length index imgs : length (cells index imgs) = length imgs.
Proof. revert index. induction imgs; intros; simpl; auto. Qed.

End Pictures.

(** ** Wallpapers *)

Section Wallpapers.

Implicit Types (W : World) (w : MainWindow) (urls : list url).

Lemma sends_nil w : sends [] w = w.
Proof. destruct w. unfold sends. simpl. by rewrite app_nil_r. Qed.

Lemma sends_send r rs w : sends rs (send r w) = sends (r :: rs) w.
Proof. unfold sends, send. simpl. by rewrite <- app_assoc. Qed.

(** Setting the background touches neither the files nor the requests. *)
Lemma set_system_wallpaper_frame W path w :
  files (set_system_wallpaper W path w) = files w
  ∧ requests_sent (set_system_wallpaper W path w) = requests_sent w
  ∧ selected_images (set_system_wallpaper W path w) = selected_images w
  ∧ wallpaper_timer (set_system_wallpaper W path w) = wallpaper_timer w.
Proof.
  unfold set_system_wallpaper. simpl.
  destruct (recognized (platform W)); [|done].
  by destruct (os_set_background W _).
Qed.

Lemma files_set_system_wallpaper W path w :
  files (set_system_wallpaper W path w) = files w.
Proof. apply set_system_wallpaper_frame. Qed.

Lemma requests_set_system_wallpaper W path w :
  requests_sent (set_system_wallpaper W path w) = requests_sent w.
Proof. apply set_system_wallpaper_frame. Qed.

(** The loop when every download succeeds: all the URLs are requested,
    in order, and every picture is pasted at the corner of its index. *)
Lemma collage_loop_ok W index urls imgs collage w :
  Forall2 (λ u img, download W u = Ok img) urls imgs →
  ∃ collage',
    collage_loop W index urls collage w
    = (Ok collage', sends (GET_image <$> urls) w)
    ∧ canvas_base collage' = canvas_base collage
    ∧ layers collage' = layers collage ++ cells index imgs.
Proof.
  intros Hall. revert index collage w.
  induction Hall as [|u img urls imgs Hu Hall IH]; intros index collage w.
  - exists collage. simpl. by rewrite sends_nil, app_nil_r.
  - simpl. rewrite Hu.
    destruct (IH (index + 1) (paste collage (thumbnail img cell_size)
                                (cell_corner index)) (send (GET_image u) w))
      as (c' & Heq & Hbase & Hlayers).
    exists c'. rewrite Heq, sends_send. split; [done|]. split; [done|].
    rewrite Hlayers. simpl. by rewrite <- app_assoc.
Qed.

(** The loop sends requests and does nothing else to the window. *)
Lemma collage_loop_frame W index urls collage w :
  ∃ k, (collage_loop W index urls collage w).2
       = sends (GET_image <$> take k urls) w.
Proof.
  revert index collage w.
  induction urls as [|u urls IH]; intros index collage w; simpl.
  - exists 0%nat. by rewrite sends_nil.
  - destruct (download W u) as [img|e].
    + destruct (IH (index + 1) (paste collage (thumbnail img cell_size)
                                  (cell_corner index)) (send (GET_image u) w))
        as [k Hk].
      exists (S k). by rewrite Hk, sends_send.
    + exists 1%nat. simpl. by rewrite <- sends_send, sends_nil.
Qed.

(** The loop raises as soon as one download or one decoding raises. *)
Lemma collage_loop_raises W index urls collage w :
  Exists (λ u, ∃ e, download W u = Raised e) urls →
  ∃ e, (collage_loop W index urls collage w).1 = Raised e.
Proof.
  intros Hex. revert index collage w.
  induction urls as [|u urls IH]; intros index collage w.
  - by apply Exists_nil in Hex.
  - simpl. destruct (download W u) as [img|e] eqn:Hu; [|by exists e].
    apply Exists_cons in Hex as [[e He]|Hex]; [congruence|].
    by apply IH.
Qed.

Lemma collage_loop_returns W index urls collage w collage' :
  (collage_loop W index urls collage w).1 = Ok collage' →
  Forall (λ u, ∃ img, download W u = Ok img) urls
  ∧ (collage_loop W index urls collage w).2 = sends (GET_image <$> urls) w.
Proof.
  revert index collage w.
  induction urls as [|u urls IH]; intros index collage w; simpl.
  - intros _. by rewrite sends_nil.
  - destruct (download W u) as [img|e] eqn:Hu; [|done].
    intros Hok. destruct (IH _ _ _ Hok) as [Hall Hw].
    split; [constructor; eauto|]. by rewrite Hw, sends_send.
Qed.

(** C2, as the claim states it: it fails for a picture that is not of the
    shape of a cell. The pictures of the sample host are 320 by 240, and
    they are pasted at that size. *)
Lemma create_collage_keeps_small_pictures :
  ¬ (∀ W urls w collage w1,
       collage_loop W 0 (take 9 urls) blank_canvas w = (Ok collage, w1) →
       Forall (λ cell, im_size cell.1 = (640, 360)) (layers collage)).
Proof.
  intros H.
  specialize (H (sample_world (Ok [])) ["a"] blank _ _ eq_refl).
  vm_compute in H. apply Forall_cons in H as [Hsize _]. discriminate Hsize.
Qed.

(** C2, amended. When the first nine of the URLs download and decode, they
    are requested in the order of the list and no other URL is; the canvas
    is a blank RGB picture of 1920 by 1080 on which picture [i], shrunk by
    [thumbnail((640, 360))], is pasted at [(640 * (i mod 3), 360 * (i div
    3))]; the encoded canvas is written to the collage file. A shrunk
    picture is at most 640 by 360; a picture that is already within 640 by
    360 is pasted as it is; a larger picture is never enlarged on either
    side and keeps its aspect ratio: it gets the height 360 or the width
    640, and its other side is the proportional length rounded down or up to
    a whole pixel. *)
Theorem create_collage_composes (W : World) (urls : list url)
    (w : MainWindow) (imgs : list Image) :
  Forall2 (λ u img, download W u = Ok img) (take 9 urls) imgs →
  ∃ (collage : Image) (w1 : MainWindow),
    collage_loop W 0 (take 9 urls) blank_canvas w = (Ok collage, w1)
    ∧ requests_sent w1 = requests_sent w ++ (GET_image <$> take 9 urls)
    ∧ canvas_base collage = New "RGB" (1920, 1080)
    ∧ length (layers collage) = length imgs
    ∧ (∀ (i : nat) (img : Image), imgs !! i = Some img →
         layers collage !! i
         = Some (thumbnail img (640, 360),
                 (640 * (Z.of_nat i `mod` 3), 360 * (Z.of_nat i `div` 3)))
         ∧ (im_size (thumbnail img (640, 360))).1 ≤ 640
         ∧ (im_size (thumbnail img (640, 360))).2 ≤ 360
         ∧ ((im_size img).1 ≤ 640 → (im_size img).2 ≤ 360 →
            thumbnail img (640, 360) = img)
         ∧ (0 < (im_size img).1 → 0 < (im_size img).2 →
            (im_size (thumbnail img (640, 360))).1 ≤ (im_size img).1
            ∧ (im_size (thumbnail img (640, 360))).2 ≤ (im_size img).2
            ∧ (640 < (im_size img).1 ∨ 360 < (im_size img).2 →
               ((im_size (thumbnail img (640, 360))).2 = 360
                ∧ Z.abs ((im_size (thumbnail img (640, 360))).1 * (im_size img).2
                         - 360 * (im_size img).1) < (im_size img).2)
               ∨ ((im_size (thumbnail img (640, 360))).1 = 640
                  ∧ Z.abs ((im_size (thumbnail img (640, 360))).2 * (im_size img).1
                           - 640 * (im_size img).2) < (im_size img).1))))
    ∧ (∀ content, encode_jpeg W collage = Ok content →
         files (create_collage W urls w)
         = <[collage_path := content]> (files w)).
Proof.
  intros Hall.
  destruct (collage_loop_ok W 0 _ _ blank_canvas w Hall)
    as (collage & Heq & Hbase & Hlayers).
  exists collage, (sends (GET_image <$> take 9 urls) w).
  split; [done|]. split; [done|]. split; [done|].
  simpl in Hlayers. split; [by rewrite Hlayers, cells_length|]. split.
  - intros i img Hi. rewrite Hlayers, cells_lookup, Hi. simpl.
    split; [done|]. destruct (thumbnail_in_cell img) as [Hw Hh].
    split; [done|]. split; [done|]. split; [apply thumbnail_fits|].
    apply thumbnail_shrinks.
  - intros content Henc. unfold create_collage. cbv zeta.
    change (New "RGB" (1920, 1080)) with blank_canvas. rewrite Heq.
    unfold save. rewrite Henc. cbn [files show_message].
    by rewrite files_set_system_wallpaper.
Qed.

(** Ten URLs on the sample host: nine pictures are pasted. *)
Lemma create_collage_composes_witness :
  let W := sample_world (Ok []) in
  let imgs := replicate 9 (Decoded png_stream (320, 240)) in
  Forall2 (λ u img, download W u = Ok img) (take 9 ten_urls) imgs
  ∧ ∃ collage w1,
      collage_loop W 0 (take 9 ten_urls) blank_canvas blank = (Ok collage, w1)
      ∧ length (layers collage) = 9%nat.
Proof.
  intros W imgs.
  assert (Hall : Forall2 (λ u img, download W u = Ok img) (take 9 ten_urls) imgs)
    by (repeat constructor).
  split; [exact Hall|].
  destruct (create_collage_composes W ten_urls blank imgs Hall)
    as (collage & w1 & Heq & _ & _ & Hlen & _).
  exists collage, w1. split; [exact Heq|exact Hlen].
Defined.

(** C5. When one of the downloads or decodings of [create_collage] raises,
    the files and the backgrounds are what they were and the message for a
    failed collage is shown for three seconds. In every run, the files
    change only after every URL of the collage has been requested,
    downloaded and decoded. *)
Theorem create_collage_failure (W : World) (urls : list url) (w : MainWindow) :
  let w' := create_collage W urls w in
  (Exists (λ u, ∃ e, download W u = Raised e) (take 9 urls) →
   files w' = files w
   ∧ backgrounds w' = backgrounds w
   ∧ ∃ e, shown_messages w' = shown_messages w ++ [msg_collage_failed e])
  ∧ (files w' ≠ files w →
     Forall (λ u, ∃ img, download W u = Ok img) (take 9 urls)
     ∧ requests_sent w' = requests_sent w ++ (GET_image <$> take 9 urls)).
Proof.
  cbv zeta. unfold create_collage. cbv zeta.
  pose proof (collage_loop_raises W 0 (take 9 urls) (New "RGB" (1920, 1080)) w) as Hraise.
  pose proof (collage_loop_returns W 0 (take 9 urls) (New "RGB" (1920, 1080)) w) as Hret.
  destruct (collage_loop_frame W 0 (take 9 urls) (New "RGB" (1920, 1080)) w) as [k Hk].
  destruct (collage_loop W 0 (take 9 urls) (New "RGB" (1920, 1080)) w)
    as [[collage|e] w1]; simpl in *.
  - split.
    + intros Hex. destruct (Hraise Hex) as [e He]. discriminate He.
    + intros _. destruct (Hret collage eq_refl) as [Hall Hw1].
      split; [done|]. clear Hk. subst w1. unfold save.
      destruct (encode_jpeg W collage) as [content|e];
        cbn [requests_sent show_message].
      * by rewrite requests_set_system_wallpaper.
      * by destruct (files _ !! collage_path).
  - subst w1. simpl. split; [|done]. intros _. eauto.
Qed.

(** The second of three URLs cannot be downloaded. *)
Lemma create_collage_failure_witness :
  let W := sample_world (Ok []) in
  let w := set_files {[collage_path := jpeg_stream]} blank in
  Exists (λ u, ∃ e, download W u = Raised e) (take 9 ["a"; "down"; "b"])
  ∧ files (create_collage W ["a"; "down"; "b"] w) = files w.
Proof.
  intros W w.
  assert (Hex : Exists (λ u, ∃ e, download W u = Raised e)
                  (take 9 ["a"; "down"; "b"])).
  { apply Exists_cons_tl, Exists_cons_hd. by exists "timed out"%string. }
  split; [exact Hex|].
  exact (proj1 (proj1 (create_collage_failure W ["a"; "down"; "b"] w) Hex)).
Defined.

End Wallpapers.

(** ** Generation *)

Section Generation.

Implicit Types (W : World) (w : MainWindow) (urls : list url).

Lemma advances_refl w : advances w w.
Proof. repeat split. exists []. by rewrite app_nil_r. Qed.

Lemma advances_trans w1 w2 w3 :
  advances w1 w2 → advances w2 w3 → advances w1 w3.
Proof.
  intros (Hs & He & Hb & x & Hx) (Hs' & He' & Hb' & y & Hy).
  repeat split; [congruence..|].
  exists (x ++ y). by rewrite Hy, Hx, app_assoc.
Qed.

Lemma advances_show_message text duration w :
  advances w (show_message text duration w).
Proof. repeat split. by eexists. Qed.

Lemma advances_sends rs w : advances w (sends rs w).
Proof. repeat split. exists []. simpl. by rewrite app_nil_r. Qed.

Lemma advances_send r w : advances w (send r w).
Proof. repeat split. exists []. simpl. by rewrite app_nil_r. Qed.

Lemma advances_set_files fs w : advances w (set_files fs w).
Proof. repeat split. exists []. simpl. by rewrite app_nil_r. Qed.

Lemma advances_set_system_wallpaper W path w :
  advances w (set_system_wallpaper W path w).
Proof.
  unfold set_system_wallpaper. cbv zeta.
  destruct (recognized (platform W)); [|apply advances_refl].
  destruct (os_set_background W _); [|apply advances_show_message].
  repeat split. exists []. simpl. by rewrite app_nil_r.
Qed.

Lemma advances_save W img path w : advances w (save W img path w).2.
Proof.
  unfold save. destruct (encode_jpeg W img); simpl.
  - apply advances_set_files.
  - destruct (files w !! path); [apply advances_set_files|apply advances_refl].
Qed.

Lemma advances_create_collage W urls w : advances w (create_collage W urls w).
Proof.
  unfold create_collage. cbv zeta.
  destruct (collage_loop_frame W 0 (take 9 urls) (New "RGB" (1920, 1080)) w)
    as [k Hk].
  destruct (collage_loop W 0 (take 9 urls) (New "RGB" (1920, 1080)) w)
    as [[collage|e] w1]; simpl in Hk; subst w1.
  - pose proof (advances_save W collage collage_path
                  (sends (GET_image <$> take k (take 9 urls)) w)) as Hsave.
    destruct (save W collage collage_path _) as [[[]|e] w2]; simpl in Hsave.
    + eapply advances_trans; [apply advances_sends|].
      eapply advances_trans; [apply Hsave|].
      eapply advances_trans; [apply advances_set_system_wallpaper|].
      apply advances_show_message.
    + eapply advances_trans; [apply advances_sends|].
      eapply advances_trans; [apply Hsave|]. apply advances_show_message.
  - eapply advances_trans; [apply advances_sends|]. apply advances_show_message.
Qed.

Lemma advances_set_single_wallpaper W u w :
  advances w (set_single_wallpaper W u w).
Proof.
  unfold set_single_wallpaper. cbv zeta.
  eapply advances_trans; [apply (advances_send (GET_image u))|].
  destruct (download W u) as [img|e]; [|apply advances_show_message].
  pose proof (advances_save W img single_path (send (GET_image u) w)) as Hsave.
  destruct (save W img single_path _) as [[[]|e] w2]; simpl in Hsave.
  - eapply advances_trans; [apply Hsave|].
    eapply advances_trans; [apply advances_set_system_wallpaper|].
    apply advances_show_message.
  - eapply advances_trans; [apply Hsave|]. apply advances_show_message.
Qed.

(** The two branches of [generate_wallpaper]. *)
Lemma generate_wallpaper_single W w u :
  selected_images w = [u] →
  generate_wallpaper W w
  = timer_start 3600000
      (set_single_wallpaper W u
         (show_message msg_generating.1 msg_generating.2 w)).
Proof. intros Hsel. unfold generate_wallpaper. simpl. by rewrite Hsel. Qed.

Lemma generate_wallpaper_collage W w :
  length (selected_images w) ≠ 1%nat →
  generate_wallpaper W w
  = timer_start 3600000
      (create_collage W (selected_images w)
         (show_message msg_generating.1 msg_generating.2 w)).
Proof.
  intros Hlen. unfold generate_wallpaper. simpl.
  by rewrite bool_decide_eq_false_2.
Qed.

Lemma advances_generate_wallpaper W w :
  ∃ extra,
    selected_images (generate_wallpaper W w) = selected_images w
    ∧ shown_messages (generate_wallpaper W w)
      = shown_messages w ++ msg_generating :: extra.
Proof.
  assert (Hadv : ∃ w1, generate_wallpaper W w = timer_start 3600000 w1
                 ∧ advances (show_message msg_generating.1 msg_generating.2 w) w1).
  { unfold generate_wallpaper. cbv zeta. case_bool_decide.
    - eexists. split; [done|]. apply advances_set_single_wallpaper.
    - eexists. split; [done|]. apply advances_create_collage. }
  destruct Hadv as (w1 & -> & Hs & _ & _ & extra & Hm).
  exists extra. simpl in *. split; [done|].
  by rewrite Hm, <- app_assoc.
Qed.

(** Once a click has changed the selection, the button is enabled exactly
    when something is selected. *)
Lemma toggle_selection_button u w :
  u ∉ excluded_urls w →
  u ∈ selected_images w ∨ (length (selected_images w) < 10)%nat →
  btn_generate_enabled (toggle_selection u w)
  = bool_decide (0 < length (selected_images (toggle_selection u w)))%nat.
Proof.
  intros He Hor. unfold toggle_selection.
  rewrite bool_decide_eq_false_2 by done.
  case_bool_decide as Hin; [done|].
  rewrite bool_decide_eq_false_2 by (destruct Hor; [done|lia]). done.
Qed.

(** C3, in a window that has just been created. Nothing is selected and
    the button is enabled; a click on it runs [generate_wallpaper], which
    takes the collage branch with no picture and starts the timer, and
    the blank canvas is written to the collage file. *)
Theorem generate_enabled_at_startup (W W' : World) (disk : gmap string bytes) :
  let w0 := init W disk in
  selected_images w0 = []
  ∧ btn_generate_enabled w0 = true
  ∧ click_generate W' w0
    = timer_start 3600000
        (create_collage W' []
           (show_message msg_generating.1 msg_generating.2 w0))
  ∧ (∀ content, encode_jpeg W' blank_canvas = Ok content →
     files (click_generate W' w0) = <[collage_path := content]> disk).
Proof.
  cbv zeta. unfold init, load_new_batch. cbv zeta.
  match goal with |- context [load_images W ?w] =>
    destruct (load_images_frame W w) as (Hs & _ & Hb & _ & Hf);
    set (w0 := load_images W w) in *
  end.
  simpl in Hs, Hb, Hf.
  split; [done|]. split; [done|].
  assert (Hclick : click_generate W' w0
                   = timer_start 3600000
                       (create_collage W' []
                          (show_message msg_generating.1 msg_generating.2 w0))).
  { unfold click_generate. rewrite Hb.
    rewrite generate_wallpaper_collage by (rewrite Hs; simpl; lia).
    by rewrite Hs. }
  split; [done|].
  intros content Henc. rewrite Hclick.
  unfold create_collage. simpl. unfold save.
  change (New "RGB" (1920, 1080)) with blank_canvas. rewrite Henc.
  cbn [files show_message timer_start].
  rewrite files_set_system_wallpaper. simpl. by rewrite Hf.
Qed.

(** C8, as the claim states it: it fails for a download that is not already
    the JPEG stream that the encoder produces. On the sample host the
    picture arrives as a PNG stream and the file holds a JPEG stream. *)
Lemma set_single_wallpaper_reencodes :
  ¬ (∀ W u w content size out,
       requests_get W u = Ok content →
       identify W content = Ok size →
       encode_jpeg W (Decoded content size) = Ok out →
       files (set_single_wallpaper W u w) !! single_path = Some content).
Proof.
  intros H.
  specialize (H (sample_world (Ok [])) "a" blank png_stream (320, 240)
                jpeg_stream eq_refl eq_refl eq_refl).
  vm_compute in H. discriminate H.
Qed.

(** C8, amended. When the picture downloads, decodes and encodes, one
    request is sent for its URL and the single-image file holds the JPEG
    encoding of the decoded picture, whatever it held before; no other
    file changes. *)
Theorem set_single_wallpaper_saves_jpeg (W : World) (u : url)
    (w : MainWindow) (content : bytes) (size : Z * Z) (out : bytes) :
  requests_get W u = Ok content →
  identify W content = Ok size →
  encode_jpeg W (Decoded content size) = Ok out →
  let w' := set_single_wallpaper W u w in
  requests_sent w' = requests_sent w ++ [GET_image u]
  ∧ files w' = <[single_path := out]> (files w)
  ∧ files w' !! single_path = Some out
  ∧ (∀ path, path ≠ single_path → files w' !! path = files w !! path).
Proof.
  intros Hget Hid Henc. cbv zeta.
  assert (Hfiles : files (set_single_wallpaper W u w)
                   = <[single_path := out]> (files w)
                   ∧ requests_sent (set_single_wallpaper W u w)
                     = requests_sent w ++ [GET_image u]).
  { unfold set_single_wallpaper, download, save. cbv zeta.
    rewrite Hget. simpl. rewrite Hid. simpl. rewrite Henc.
    cbn [files requests_sent show_message].
    by rewrite files_set_system_wallpaper, requests_set_system_wallpaper. }
  destruct Hfiles as [Hf Hr]. rewrite Hf, Hr.
  split; [done|]. split; [done|]. split.
  - apply lookup_insert_eq.
  - intros path Hne. by apply lookup_insert_ne.
Qed.

(** On the sample host, over a file that holds something else. *)
Lemma set_single_wallpaper_saves_jpeg_witness :
  let W := sample_world (Ok []) in
  let w := set_files {[single_path := png_stream]} blank in
  requests_get W "a" = Ok png_stream
  ∧ identify W png_stream = Ok (320, 240)
  ∧ encode_jpeg W (Decoded png_stream (320, 240)) = Ok jpeg_stream
  ∧ files (set_single_wallpaper W "a" w) !! single_path = Some jpeg_stream.
Proof.
  intros W w.
  split; [reflexivity|]. split; [reflexivity|]. split; [reflexivity|].
  exact (proj1 (proj2 (proj2
    (set_single_wallpaper_saves_jpeg W "a" w png_stream (320, 240)
       jpeg_stream eq_refl eq_refl eq_refl)))).
Defined.

(** C10. [generate_wallpaper] always leaves the timer running with an
    interval of one hour, whatever the collaborators answer, be it called
    from the button or from the timer, and it keeps the selection. When
    the timer fires afterwards, [generate_wallpaper] runs again if a URL
    is selected and nothing happens otherwise; a run of
    [generate_wallpaper] never leaves the window as it was. *)
Theorem generate_wallpaper_restarts_timer (W W' : World) (w : MainWindow) :
  let w1 := generate_wallpaper W w in
  wallpaper_timer w1 = Some 3600000
  ∧ wallpaper_timer (click_generate W w)
    = (if btn_generate_enabled w then Some 3600000 else wallpaper_timer w)
  ∧ wallpaper_timer (update_wallpaper W w)
    = (if bool_decide (selected_images w ≠ []) then Some 3600000
       else wallpaper_timer w)
  ∧ selected_images w1 = selected_images w
  ∧ timer_timeout W' w1
    = (if bool_decide (selected_images w1 ≠ []) then generate_wallpaper W' w1
       else w1)
  ∧ generate_wallpaper W' w1 ≠ w1.
Proof.
  cbv zeta.
  assert (Htimer : ∀ V v, wallpaper_timer (generate_wallpaper V v) = Some 3600000)
    by done.
  split; [done|]. split.
  { unfold click_generate. by destruct (btn_generate_enabled w). }
  split.
  { unfold update_wallpaper. by case_bool_decide. }
  split.
  { by destruct (advances_generate_wallpaper W w) as (extra & -> & _). }
  split.
  { unfold timer_timeout. by rewrite Htimer. }
  intros Heq.
  destruct (advances_generate_wallpaper W' (generate_wallpaper W w))
    as (extra & _ & Hm).
  rewrite Heq in Hm. apply (f_equal length) in Hm.
  rewrite length_app in Hm. simpl in Hm. lia.
Qed.

End Generation.

(** ** More on the selection *)

Section SelectionMore.

Implicit Types (u x : url) (l : list url) (w : MainWindow).

Lemma list_remove_filter u l :
  filter (λ x, x ≠ u) (list_remove u l) = filter (λ x, x ≠ u) l.
Proof.
  induction l as [|y l IH]; simpl; [done|].
  destruct (decide (y = u)) as [->|Hne].
  - by rewrite filter_cons_False by (intros H; by apply H).
  - by rewrite !filter_cons_True, IH by done.
Qed.

Lemma list_remove_other u x l :
  x ≠ u → x ∈ list_remove u l ↔ x ∈ l.
Proof.
  intros Hne. induction l as [|y l IH]; simpl; [done|].
  destruct (decide (y = u)) as [->|Hy].
  - rewrite elem_of_cons. split; [by right|]. by intros [?|?].
  - by rewrite !elem_of_cons, IH.
Qed.

(** A click that is neither ignored nor refused restyles the grid for the
    selection it leaves. *)
Lemma toggle_selection_grid u w :
  u ∉ excluded_urls w →
  u ∈ selected_images w ∨ (length (selected_images w) < 10)%nat →
  grid (toggle_selection u w)
  = restyle u (selected_images (toggle_selection u w)) (grid w).
Proof.
  intros He Hor. unfold toggle_selection.
  rewrite bool_decide_eq_false_2 by done.
  case_bool_decide as Hin; [done|].
  by rewrite bool_decide_eq_false_2 by (destruct Hor; [done|lia]).
Qed.

Lemma restyle_length u l items : length (restyle u l items) = length items.
Proof.
  induction items as [|t items IH]; simpl; [done|].
  destruct (decide (th_url t = u)); simpl; by rewrite ?IH.
Qed.

Lemma restyle_lookup u l items (i : nat) t :
  items !! i = Some t →
  ∃ t', restyle u l items !! i = Some t'
    ∧ th_url t' = th_url t ∧ th_row t' = th_row t ∧ th_col t' = th_col t
    ∧ (th_url t = u →
       (∀ (j : nat) tj, (j < i)%nat → items !! j = Some tj → th_url tj ≠ u) →
       th_style t'
       = if bool_decide (u ∈ l) then style_selected else style_unselected)
    ∧ (th_url t ≠ u
       ∨ (∃ (j : nat) tj, (j < i)%nat ∧ items !! j = Some tj ∧ th_url tj = u) →
       t' = t).
Proof.
  revert i. induction items as [|t0 items IH]; intros i Hi; [done|].
  simpl. destruct (decide (th_url t0 = u)) as [Hu|Hu].
  - destruct i as [|i]; simpl in *.
    + injection Hi as ->. eexists. split; [done|]. simpl.
      split_and!; try done.
      intros [Hne|(j & tj & Hj & _)]; [done|lia].
    + exists t. split_and!; try done.
      intros _ Hfirst. by destruct (Hfirst 0%nat t0 ltac:(lia) eq_refl).
  - destruct i as [|i]; simpl in *.
    + injection Hi as ->. exists t. split_and!; done.
    + destruct (IH i Hi) as (t' & Ht' & Hurl & Hrow & Hcol & Hfirst & Hrest).
      exists t'. split_and!; try done.
      * intros Htu Hbefore. apply Hfirst; [done|].
        intros j tj Hj Hlook. apply (Hbefore (S j) tj); [lia|done].
      * intros [Hne|(j & tj & Hj & Hlook & Htj)]; apply Hrest; [by left|].
        destruct j as [|j]; simpl in Hlook; [congruence|].
        right. exists j, tj. split_and!; [lia|done..].
Qed.

(** X1. A click that is neither ignored nor refused flips whether its URL is
    selected and leaves every other URL selected or not as it was, when the
    selection has no duplicates. *)
Theorem toggle_selection_flips (u : url) (w : MainWindow) :
  NoDup (selected_images w) →
  u ∉ excluded_urls w →
  u ∈ selected_images w ∨ (length (selected_images w) < 10)%nat →
  (u ∈ selected_images (toggle_selection u w) ↔ u ∉ selected_images w)
  ∧ (∀ x, x ≠ u →
       x ∈ selected_images (toggle_selection u w) ↔ x ∈ selected_images w).
Proof.
  intros Hnd He Hor.
  destruct (toggle_selection_cases u w)
    as [[He' _]|[(_ & Hin & Hs & _)|[(_ & Hn & Hc & _)|(_ & Hn & _ & Hs & _)]]].
  - done.
  - rewrite Hs. split.
    + destruct (list_remove_NoDup u _ Hnd Hin) as [_ Hout]. tauto.
    + intros x Hx. by apply list_remove_other.
  - destruct Hor; [done|lia].
  - rewrite Hs. split.
    + split; [done|]. intros _. apply elem_of_app. right.
      by apply list_elem_of_singleton.
    + intros x Hx. rewrite elem_of_app, list_elem_of_singleton.
      split; [by intros [?|?]|by left].
Qed.

Lemma toggle_selection_flips_witness :
  NoDup (selected_images (set_selected_images ["a"; "b"] blank))
  ∧ ("a" ∈ selected_images
             (toggle_selection "a" (set_selected_images ["a"; "b"] blank))
     ↔ "a" ∉ selected_images (set_selected_images ["a"; "b"] blank)).
Proof.
  assert (Hnd : NoDup (selected_images (set_selected_images ["a"; "b"] blank))).
  { refine (bool_decide_unpack _ _). vm_compute. exact I. }
  split; [exact Hnd|].
  refine (proj1 (toggle_selection_flips "a"
                   (set_selected_images ["a"; "b"] blank) Hnd _ _)).
  - refine (bool_decide_unpack _ _). vm_compute. exact I.
  - left. refine (bool_decide_unpack _ _). vm_compute. exact I.
Defined.

(** X2. No click changes the order in which the other URLs are selected:
    without the URL of the click, the selection reads the same before and
    after. *)
Theorem toggle_selection_keeps_order (u : url) (w : MainWindow) :
  filter (λ x, x ≠ u) (selected_images (toggle_selection u w))
  = filter (λ x, x ≠ u) (selected_images w).
Proof.
  destruct (toggle_selection_cases u w)
    as [[_ ->]|[(_ & _ & -> & _)|[(_ & _ & _ & ->)|(_ & _ & _ & -> & _)]]].
  - done.
  - apply list_remove_filter.
  - done.
  - rewrite filter_app, filter_cons_False by (intros H; by apply H).
    by rewrite filter_nil, app_nil_r.
Qed.

(** X3. A click that is neither ignored nor refused keeps every label of
    the grid with its URL and its cell. The first label that carries the URL
    of the click gets the border of a selected picture if the URL is now
    selected and the border of an unselected one if not; every other label,
    a later label of the same URL included, is left as it is. *)
Theorem toggle_selection_indicator (u : url) (w : MainWindow) :
  u ∉ excluded_urls w →
  u ∈ selected_images w ∨ (length (selected_images w) < 10)%nat →
  length (grid (toggle_selection u w)) = length (grid w)
  ∧ ∀ (i : nat) t, grid w !! i = Some t →
      ∃ t', grid (toggle_selection u w) !! i = Some t'
        ∧ th_url t' = th_url t ∧ th_row t' = th_row t ∧ th_col t' = th_col t
        ∧ (th_url t = u →
           (∀ (j : nat) tj, (j < i)%nat → grid w !! j = Some tj → th_url tj ≠ u) →
           th_style t'
           = if bool_decide (u ∈ selected_images (toggle_selection u w))
             then style_selected else style_unselected)
        ∧ (th_url t ≠ u
           ∨ (∃ (j : nat) tj, (j < i)%nat ∧ grid w !! j = Some tj ∧ th_url tj = u) →
           t' = t).
Proof.
  intros He Hor. rewrite (toggle_selection_grid u w He Hor).
  split; [apply restyle_length|].
  intros i t Hi. by apply restyle_lookup.
Qed.

(** The first label of ["a"] in a grid that shows ["a"] twice. *)
Lemma toggle_selection_indicator_witness :
  let w := load_more_images (sample_world (Ok ["a"]))
             (init (sample_world (Ok ["a"; "b"])) ∅) in
  ("a" ∉ excluded_urls w)
  ∧ ("a" ∈ selected_images w ∨ (length (selected_images w) < 10)%nat)
  ∧ length (grid (toggle_selection "a" w)) = length (grid w).
Proof.
  intros w.
  assert (He : "a" ∉ excluded_urls w).
  { refine (bool_decide_unpack _ _). vm_compute. exact I. }
  assert (Hor : "a" ∈ selected_images w ∨ (length (selected_images w) < 10)%nat).
  { right. vm_compute. lia. }
  split; [exact He|]. split; [exact Hor|].
  exact (proj1 (toggle_selection_indicator "a" w He Hor)).
Defined.

End SelectionMore.

(** ** More on the loader thread *)

Section LoaderMore.

Variable loadFromData : bytes → bool.

Implicit Types (l : ImageLoader) (evs : list Event).

(** No step changes the label or the URL of a loader. *)
Lemma step_identity ev l :
  label (step loadFromData ev l).1 = label l
  ∧ loader_url (step loadFromData ev l).1 = loader_url l.
Proof.
  unfold step, run_enter, run_resume, run_emit.
  destruct ev as [|[content|e]| |], (phase l); simpl; try done.
  - by destruct (negb (_is_running l)).
  - by destruct (loadFromData content && _is_running l).
Qed.

(** A step that emits something is the last step of [run]. *)
Lemma step_emits ev l :
  (step loadFromData ev l).2 = []
  ∨ (phase (step loadFromData ev l).1 = Finished
     ∧ (length (step loadFromData ev l).2 = 1)%nat).
Proof.
  unfold step, run_resume, run_emit.
  destruct ev as [|[content|e]| |], (phase l); simpl; auto.
  destruct (loadFromData content && _is_running l); simpl; auto.
Qed.

Lemma exec_finished evs l :
  phase l = Finished → (exec loadFromData evs l).2 = [].
Proof.
  revert l. induction evs as [|ev evs IH]; intros l Hph; simpl; [done|].
  assert (Hstep : (step loadFromData ev l).2 = []
                  ∧ phase (step loadFromData ev l).1 = Finished).
  { unfold step. rewrite Hph. by destruct ev. }
  destruct Hstep as [Hout Hph'].
  destruct (step loadFromData ev l) as [l1 out1]. simpl in *. subst out1.
  specialize (IH l1 Hph').
  by destruct (exec loadFromData evs l1) as [l2 out2].
Qed.

(** X4. Whatever happens to a loader, and in whatever order, it emits at
    most one signal. *)
Theorem loader_emits_once (evs : list Event) (l : ImageLoader) :
  (length (exec loadFromData evs l).2 ≤ 1)%nat.
Proof.
  revert l. induction evs as [|ev evs IH]; intros l; simpl; [lia|].
  pose proof (step_emits ev l) as Hstep.
  destruct (step loadFromData ev l) as [l1 out1]. simpl in Hstep.
  specialize (IH l1). pose proof (exec_finished evs l1) as Hfin.
  destruct (exec loadFromData evs l1) as [l2 out2]. simpl in *.
  rewrite length_app. destruct Hstep as [->|[Hph Hlen]]; simpl; [done|].
  rewrite (Hfin Hph). simpl. lia.
Qed.

(** The pixmap that a thread past the test is about to emit was made of
    bytes that [loadFromData] accepted. *)
Lemma step_tested ev l :
  (∀ content, phase l = Tested (Pixmap content) → loadFromData content = true) →
  ∀ content, phase (step loadFromData ev l).1 = Tested (Pixmap content) →
             loadFromData content = true.
Proof.
  intros Hinv content. unfold step, run_enter, run_resume, run_emit.
  destruct ev as [|[c|e]| |], (phase l) eqn:Hp; simpl; rewrite ?Hp;
    try done; try (by apply Hinv).
  - by destruct (negb (_is_running l)).
  - destruct (loadFromData c) eqn:Hdec, (_is_running l); simpl; try done.
    by intros [= <-].
Qed.

Lemma exec_loaded evs l s :
  (∀ content, phase l = Tested (Pixmap content) → loadFromData content = true) →
  s ∈ (exec loadFromData evs l).2 → is_loaded s = true →
  ∃ content, s = loaded (label l) (Pixmap content) (loader_url l)
             ∧ loadFromData content = true.
Proof.
  revert l. induction evs as [|ev evs IH]; intros l Hinv Hin Hs; simpl in Hin.
  - by apply elem_of_nil in Hin.
  - destruct (step_identity ev l) as [Hlbl Hurl].
    pose proof (step_tested ev l Hinv) as Hinv'.
    assert (Hstep : ∀ s', s' ∈ (step loadFromData ev l).2 → is_loaded s' = true →
              ∃ content, s' = loaded (label l) (Pixmap content) (loader_url l)
                         ∧ loadFromData content = true).
    { unfold step, run_resume, run_emit.
      destruct ev as [|[content|e]| |], (phase l) as [| |[content']|] eqn:Hp;
        simpl; try (intros s' Hs'; by apply elem_of_nil in Hs').
      - destruct (loadFromData content && _is_running l); simpl;
          intros s' Hs' Hl; [by apply elem_of_nil in Hs'|].
        apply list_elem_of_singleton in Hs'. by subst s'.
      - intros s' Hs' Hl. apply list_elem_of_singleton in Hs'. by subst s'.
      - intros s' Hs' _. apply list_elem_of_singleton in Hs'. subst s'.
        exists content'. split; [done|]. by apply Hinv. }
    destruct (step loadFromData ev l) as [l1 out1]. simpl in *.
    specialize (IH l1 Hinv').
    destruct (exec loadFromData evs l1) as [l2 out2]. simpl in *.
    apply elem_of_app in Hin as [Hin|Hin]; [by apply Hstep|].
    rewrite <- Hlbl, <- Hurl. by apply IH.
Qed.

(** X5. A [loaded] signal of a loader carries the label and the URL the
    loader was created with, and a pixmap of bytes that [loadFromData]
    accepted. *)
Theorem loaded_is_own (evs : list Event) (lbl : nat) (u : url) (s : Signal) :
  s ∈ (exec loadFromData evs (new_loader lbl u)).2 →
  is_loaded s = true →
  ∃ content, s = loaded lbl (Pixmap content) u ∧ loadFromData content = true.
Proof. by apply exec_loaded. Qed.

(** X6. Along every schedule in which [stop()] is called while the thread
    has not yet passed the test that guards [loaded.emit], what the loader
    emits after the call holds no [loaded] signal. The test and the emit are
    two statements: when [stop()] falls between them, [loaded] is emitted
    after the call. *)
Theorem stop_suppresses_loaded (evs1 evs2 : list Event) (l : ImageLoader)
    (lbl : nat) (u : url) (content : bytes) :
  ((∀ p, phase (exec loadFromData evs1 l).1 ≠ Tested p) →
   ∃ rest,
     (exec loadFromData (evs1 ++ StopCalled :: evs2) l).2
     = (exec loadFromData evs1 l).2 ++ rest
     ∧ Forall (λ s, is_loaded s = false) rest)
  ∧ (loadFromData content = true →
     (exec loadFromData
        ([RunEnters; RequestCompletes (Ok content)] ++ StopCalled :: [EmitRuns])
        (new_loader lbl u)).2
     = [loaded lbl (Pixmap content) u]).
Proof.
  split.
  - intros Hph. rewrite exec_app.
    pose proof (no_loaded_after_stop loadFromData evs1 evs2 l Hph) as Hrest.
    destruct (exec loadFromData evs1 l) as [l1 out1].
    change ((l1, out1).1) with l1 in Hrest.
    destruct (exec loadFromData (StopCalled :: evs2) l1) as [l2 out2].
    by exists out2.
  - intros Hdec. simpl. by rewrite Hdec.
Qed.

(** X7. A loader on which [stop()] is called before its thread enters
    [run] never emits a signal: [run] returns before it sends the
    request. *)
Theorem stop_before_run_is_silent (evs0 evs : list Event) (lbl : nat) (u : url) :
  Forall (λ ev, ev ≠ RunEnters) evs0 →
  (exec loadFromData (evs0 ++ StopCalled :: evs) (new_loader lbl u)).2 = [].
Proof.
  intros Hno.
  assert (Hgen : ∀ l, phase l = Started →
            (exec loadFromData (evs0 ++ StopCalled :: evs) l).2 = []).
  { induction Hno as [|ev evs0 Hev Hno IH]; intros l Hph.
    - simpl. pose proof (stopped_before_run_silent loadFromData evs (stop l)
                           eq_refl (or_introl Hph)) as Hsil.
      by destruct (exec loadFromData evs (stop l)).
    - simpl. assert (Hstep : (step loadFromData ev l).2 = []
                             ∧ phase (step loadFromData ev l).1 = Started).
      { unfold step. rewrite Hph. by destruct ev. }
      destruct Hstep as [Hout Hph'].
      destruct (step loadFromData ev l) as [l1 out1]. simpl in *. subst out1.
      specialize (IH l1 Hph').
      by destruct (exec loadFromData (evs0 ++ StopCalled :: evs) l1). }
  by apply Hgen.
Qed.

End LoaderMore.

(** A picture that arrives and decodes. *)
Lemma loaded_is_own_witness :
  let s := loaded 3 (Pixmap png_stream) "a" in
  s ∈ (exec (λ _, true) [RunEnters; RequestCompletes (Ok png_stream); EmitRuns]
         (new_loader 3 "a")).2
  ∧ is_loaded s = true
  ∧ ∃ content, s = loaded 3 (Pixmap content) "a".
Proof.
  intros s.
  assert (Hin : s ∈ (exec (λ _, true)
                       [RunEnters; RequestCompletes (Ok png_stream); EmitRuns]
                       (new_loader 3 "a")).2).
  { simpl. by apply list_elem_of_singleton. }
  split; [exact Hin|]. split; [reflexivity|].
  destruct (loaded_is_own (λ _, true) _ 3 "a" s Hin eq_refl) as (content & Hs & _).
  exists content. exact Hs.
Defined.

(** [stop()] is called twice before the thread enters [run]. *)
Lemma stop_before_run_is_silent_witness :
  Forall (λ ev, ev ≠ RunEnters) [StopCalled]
  ∧ (exec (λ _, true)
       ([StopCalled] ++ StopCalled :: [RunEnters; RequestCompletes (Ok png_stream)])
       (new_loader 0 "a")).2 = [].
Proof.
  assert (Hno : Forall (λ ev, ev ≠ RunEnters) [StopCalled]).
  { repeat constructor. discriminate. }
  split; [exact Hno|].
  exact (stop_before_run_is_silent (λ _, true) [StopCalled]
           [RunEnters; RequestCompletes (Ok png_stream)] 0 "a" Hno).
Defined.

(** [stop()] while the request is under way, and [stop()] between the test
    and the emit. *)
Lemma stop_suppresses_loaded_witness :
  (∀ p, phase (exec (λ _, true) [RunEnters] (new_loader 0 "a")).1 ≠ Tested p)
  ∧ (λ _ : bytes, true) png_stream = true
  ∧ (exec (λ _, true)
       ([RunEnters; RequestCompletes (Ok png_stream)] ++ StopCalled :: [EmitRuns])
       (new_loader 0 "a")).2
    = [loaded 0 (Pixmap png_stream) "a"]
  ∧ ∃ rest,
      (exec (λ _, true)
         ([RunEnters] ++ StopCalled :: [RequestCompletes (Ok png_stream); EmitRuns])
         (new_loader 0 "a")).2
      = (exec (λ _, true) [RunEnters] (new_loader 0 "a")).2 ++ rest
      ∧ Forall (λ s, is_loaded s = false) rest.
Proof.
  assert (Hph : ∀ p, phase (exec (λ _, true) [RunEnters] (new_loader 0 "a")).1
                     ≠ Tested p) by (intros p; discriminate).
  split; [exact Hph|]. split; [reflexivity|].
  destruct (stop_suppresses_loaded (λ _, true) [RunEnters]
              [RequestCompletes (Ok png_stream); EmitRuns] (new_loader 0 "a")
              0 "a" png_stream) as [Hbefore Hrace].
  split; [exact (Hrace eq_refl)|exact (Hbefore Hph)].
Defined.

(** ** Closing the window *)

Section Closing.

(** X8. [closeEvent] clears the flag of every loader of the window and
    keeps their labels and URLs; a loader whose thread has not passed the
    test that guards [loaded.emit] when the window closes does not emit
    [loaded] afterwards. *)
Theorem closeEvent_silences (w : MainWindow) (l : ImageLoader) :
  l ∈ loaders (closeEvent w) →
  _is_running l = false
  ∧ label <$> loaders (closeEvent w) = label <$> loaders w
  ∧ loader_url <$> loaders (closeEvent w) = loader_url <$> loaders w
  ∧ ∀ loadFromData (p : Phase) (evs : list Event),
      (∀ pixmap, p ≠ Tested pixmap) →
      Forall (λ s, is_loaded s = false)
        (exec loadFromData evs (set_phase p l)).2.
Proof.
  intros Hin. simpl in Hin.
  apply list_elem_of_fmap in Hin as (l0 & -> & _).
  split; [done|]. split.
  { simpl. rewrite <- list_fmap_compose. by apply list_fmap_ext. }
  split.
  { simpl. rewrite <- list_fmap_compose. by apply list_fmap_ext. }
  intros loadFromData p evs Hp. by apply exec_stopped.
Qed.

Lemma closeEvent_silences_witness :
  let w := init (sample_world (Ok ["a"; "b"])) ∅ in
  stop (new_loader 1 "b") ∈ loaders (closeEvent w)
  ∧ _is_running (stop (new_loader 1 "b")) = false.
Proof.
  intros w.
  assert (Hin : stop (new_loader 1 "b") ∈ loaders (closeEvent w)).
  { vm_compute. apply list_elem_of_further, list_elem_of_here. }
  split; [exact Hin|].
  exact (proj1 (closeEvent_silences w _ Hin)).
Defined.

End Closing.

(** ** More on batches *)

Section BatchesMore.

Implicit Types (W : World) (w : MainWindow).

Lemma new_thumbnails_lookup i image_urls (k : nat) :
  new_thumbnails i image_urls !! k
  = (λ u, {| th_url := u; th_row := (i + Z.of_nat k) `div` 3;
             th_col := (i + Z.of_nat k) `mod` 3;
             th_style := style_placeholder |}) <$> image_urls !! k.
Proof.
  revert i k. induction image_urls as [|u rest IH]; intros i k; [done|].
  destruct k as [|k]; simpl.
  - by rewrite Z.add_0_r.
  - rewrite IH.
    by replace (i + 1 + Z.of_nat k) with (i + Z.of_nat (S k)) by lia.
Qed.

Lemma new_thumbnails_length i image_urls :
  length (new_thumbnails i image_urls) = length image_urls.
Proof. revert i. induction image_urls; intros; simpl; auto. Qed.

(** One listing request is sent for the current page, whatever it answers,
    and the page index stays. *)
Lemma load_images_request W w :
  requests_sent (load_images W w)
  = requests_sent w ++ [GET_listing (current_page w)]
  ∧ current_page (load_images W w) = current_page w.
Proof.
  unfold load_images. simpl.
  destruct (requests_get_listing W (current_page w)); [|done].
  by rewrite add_thumbnails_eq.
Qed.

(** X9. After a refresh whose listing arrives, the grid shows the listing
    and nothing else, in the order of the listing and row by row in three
    columns: item [i] is the label of URL [i] at row [i div 3] and column
    [i mod 3], with the placeholder border. No two labels share a cell. *)
Theorem refresh_grid_layout (W : World) (w : MainWindow) (image_urls : list url) :
  requests_get_listing W (now W `mod` 100) = Ok image_urls →
  let w' := load_new_batch W w in
  current_batch w' = image_urls
  ∧ length (grid w') = length image_urls
  ∧ (∀ (i : nat) u, image_urls !! i = Some u →
       grid w' !! i
       = Some {| th_url := u; th_row := Z.of_nat i `div` 3;
                 th_col := Z.of_nat i `mod` 3;
                 th_style := style_placeholder |})
  ∧ (∀ (i : nat) t, grid w' !! i = Some t →
       0 ≤ th_col t < 3 ∧ 0 ≤ th_row t
       ∧ 3 * th_row t + th_col t = Z.of_nat i)
  ∧ (∀ (i j : nat) ti tj,
       grid w' !! i = Some ti → grid w' !! j = Some tj →
       th_row ti = th_row tj → th_col ti = th_col tj → i = j).
Proof.
  intros Hget. cbv zeta.
  assert (Hgrid : grid (load_new_batch W w) = new_thumbnails 0 image_urls
                  ∧ current_batch (load_new_batch W w) = image_urls).
  { unfold load_new_batch. cbv zeta.
    by rewrite (load_images_success W _ image_urls). }
  destruct Hgrid as [Hgrid Hbatch]. rewrite Hgrid.
  assert (Hcell : ∀ (i : nat) t, new_thumbnails 0 image_urls !! i = Some t →
            th_row t = Z.of_nat i `div` 3 ∧ th_col t = Z.of_nat i `mod` 3).
  { intros i t. rewrite new_thumbnails_lookup.
    destruct (image_urls !! i); simpl; [|done]. by intros [= <-]. }
  split; [done|]. split; [apply new_thumbnails_length|]. split; [|split].
  - intros i u Hi. by rewrite new_thumbnails_lookup, Hi.
  - intros i t Hi. destruct (Hcell i t Hi) as [-> ->].
    pose proof (Z.mod_pos_bound (Z.of_nat i) 3 ltac:(lia)).
    pose proof (Z.div_mod (Z.of_nat i) 3 ltac:(lia)).
    pose proof (Z.div_pos (Z.of_nat i) 3 ltac:(lia) ltac:(lia)).
    lia.
  - intros i j ti tj Hi Hj Hrow Hcol.
    destruct (Hcell i ti Hi) as [Hri Hci], (Hcell j tj Hj) as [Hrj Hcj].
    pose proof (Z.div_mod (Z.of_nat i) 3 ltac:(lia)).
    pose proof (Z.div_mod (Z.of_nat j) 3 ltac:(lia)).
    apply Nat2Z.inj. congruence.
Qed.

Lemma refresh_grid_layout_witness :
  let W := sample_world (Ok ["a"; "b"; "c"; "d"]) in
  requests_get_listing W (now W `mod` 100) = Ok ["a"; "b"; "c"; "d"]
  ∧ length (grid (load_new_batch W blank)) = 4%nat.
Proof.
  intros W. split; [reflexivity|].
  exact (proj1 (proj2 (refresh_grid_layout W blank ["a"; "b"; "c"; "d"] eq_refl))).
Defined.

(** X10. A refresh, whether its listing arrives or not, keeps the selection,
    the button, the timer and the files, and leaves a grid in which every
    label has the placeholder border, the labels of selected URLs
    included. *)
Theorem refresh_keeps_selection (W : World) (w : MainWindow) :
  selected_images (load_new_batch W w) = selected_images w
  ∧ btn_generate_enabled (load_new_batch W w) = btn_generate_enabled w
  ∧ wallpaper_timer (load_new_batch W w) = wallpaper_timer w
  ∧ files (load_new_batch W w) = files w
  ∧ Forall (λ t, th_style t = style_placeholder) (grid (load_new_batch W w)).
Proof.
  unfold load_new_batch. cbv zeta.
  match goal with |- context [load_images W ?v] =>
    destruct (load_images_frame W v) as (Hs & _ & Hb & Ht & Hf);
    set (w0 := v) in *
  end.
  split; [done|]. split; [done|]. split; [done|]. split; [done|].
  destruct (requests_get_listing W (current_page w0)) as [image_urls|e] eqn:Hget.
  - rewrite (load_images_success W w0 image_urls Hget). simpl.
    apply Forall_lookup. intros i t. rewrite new_thumbnails_lookup.
    destruct (image_urls !! i); simpl; [|done]. by intros [= <-].
  - rewrite (load_images_failure W w0 e Hget). simpl. constructor.
Qed.

(** X11. Every mouse move over the viewport while the scroll bar is at its
    maximum loads one more page: a run of [n] of them sends [n] listing
    requests, for the [n] pages after the current one, and leaves the page
    index [n] higher, whatever the listings answer. *)
Theorem mouse_moves_load_pages (steps : list (World * Action)) (w : MainWindow) :
  Forall (λ s, ∃ v, s.2 = ViewportEvent MouseMove v v) steps →
  current_page (run_actions steps w)
  = current_page w + Z.of_nat (length steps)
  ∧ requests_sent (run_actions steps w)
    = requests_sent w
      ++ ((λ k, GET_listing (current_page w + Z.of_nat k))
            <$> seq 1 (length steps)).
Proof.
  intros Hall. revert w.
  induction Hall as [|[W a] steps [v Ha] Hall IH]; intros w; simpl in *.
  - by rewrite Z.add_0_r, app_nil_r.
  - subst a. simpl. rewrite bool_decide_eq_true_2 by done.
    destruct (IH (load_more_images W w)) as [Hpage Hreq].
    assert (Hmore : current_page (load_more_images W w) = current_page w + 1
                    ∧ requests_sent (load_more_images W w)
                      = requests_sent w ++ [GET_listing (current_page w + 1)]).
    { unfold load_more_images. cbv zeta.
      match goal with |- context [load_images W ?v] =>
        destruct (load_images_request W v) as [-> ->] end.
      done. }
    destruct Hmore as [Hp Hr]. rewrite Hpage, Hreq, Hp, Hr. split; [lia|].
    rewrite <- app_assoc. f_equal. simpl. f_equal.
    rewrite <- (fmap_S_seq 1), <- list_fmap_compose.
    apply list_fmap_ext. intros i k _. simpl. f_equal. lia.
Qed.

(** Two mouse moves at the end of the grid, the first on a host whose
    listing times out. *)
Lemma mouse_moves_load_pages_witness :
  let steps := [(sample_world (Raised "timed out"), ViewportEvent MouseMove 0 0);
                (sample_world (Ok ["c"]), ViewportEvent MouseMove 40 40)] in
  Forall (λ s, ∃ v, s.2 = ViewportEvent MouseMove v v) steps
  ∧ current_page (run_actions steps blank) = current_page blank + 2.
Proof.
  intros steps.
  assert (Hall : Forall (λ s, ∃ v, s.2 = ViewportEvent MouseMove v v) steps).
  { repeat constructor; simpl; eauto. }
  split; [exact Hall|].
  exact (proj1 (mouse_moves_load_pages steps blank Hall)).
Defined.

End BatchesMore.

(** ** More on wallpapers *)

Section WallpapersMore.

Implicit Types (W : World) (w : MainWindow) (urls : list url).

Lemma outside_refl paths w : outside paths w w.
Proof. by repeat split. Qed.

Lemma outside_trans paths w1 w2 w3 :
  outside paths w1 w2 → outside paths w2 w3 → outside paths w1 w3.
Proof.
  intros (Hg & Hl & Hb & Hp & Hf) (Hg' & Hl' & Hb' & Hp' & Hf').
  split_and!; try congruence.
  intros p Hout. by rewrite Hf', Hf.
Qed.

Lemma outside_show_message paths text duration w :
  outside paths w (show_message text duration w).
Proof. by repeat split. Qed.

Lemma outside_sends paths rs w : outside paths w (sends rs w).
Proof. by repeat split. Qed.

Lemma outside_send paths r w : outside paths w (send r w).
Proof. by repeat split. Qed.

Lemma outside_set_system_wallpaper paths W path w :
  outside paths w (set_system_wallpaper W path w).
Proof.
  unfold set_system_wallpaper. cbv zeta.
  destruct (recognized (platform W)); [|apply outside_refl].
  by destruct (os_set_background W _).
Qed.

Lemma outside_save paths W img path w :
  path ∈ paths → outside paths w (save W img path w).2.
Proof.
  intros Hin.
  assert (Hset : ∀ content,
            outside paths w (set_files (<[path := content]> (files w)) w)).
  { intros content. split_and!; try done. simpl. intros p Hp.
    apply lookup_insert_ne. by intros ->. }
  unfold save. destruct (encode_jpeg W img); simpl; [apply Hset|].
  destruct (files w !! path); [apply Hset|apply outside_refl].
Qed.

Lemma outside_create_collage W urls w :
  outside [collage_path] w (create_collage W urls w).
Proof.
  unfold create_collage. cbv zeta.
  destruct (collage_loop_frame W 0 (take 9 urls) (New "RGB" (1920, 1080)) w)
    as [k Hk].
  destruct (collage_loop W 0 (take 9 urls) (New "RGB" (1920, 1080)) w)
    as [[collage|e] w1]; simpl in Hk; subst w1.
  - pose proof (outside_save [collage_path] W collage collage_path
                  (sends (GET_image <$> take k (take 9 urls)) w)
                  ltac:(apply list_elem_of_here)) as Hsave.
    destruct (save W collage collage_path _) as [[[]|e] w2]; simpl in Hsave.
    + eapply outside_trans; [apply outside_sends|].
      eapply outside_trans; [apply Hsave|].
      eapply outside_trans; [apply outside_set_system_wallpaper|].
      apply outside_show_message.
    + eapply outside_trans; [apply outside_sends|].
      eapply outside_trans; [apply Hsave|]. apply outside_show_message.
  - eapply outside_trans; [apply outside_sends|]. apply outside_show_message.
Qed.

Lemma outside_set_single_wallpaper W u w :
  outside [single_path] w (set_single_wallpaper W u w).
Proof.
  unfold set_single_wallpaper. cbv zeta.
  eapply outside_trans; [apply (outside_send _ (GET_image u))|].
  destruct (download W u) as [img|e]; [|apply outside_show_message].
  pose proof (outside_save [single_path] W img single_path
                (send (GET_image u) w) ltac:(apply list_elem_of_here)) as Hsave.
  destruct (save W img single_path _) as [[[]|e] w2]; simpl in Hsave.
  - eapply outside_trans; [apply Hsave|].
    eapply outside_trans; [apply outside_set_system_wallpaper|].
    apply outside_show_message.
  - eapply outside_trans; [apply Hsave|]. apply outside_show_message.
Qed.

(** X12. Neither way of making a wallpaper touches the file of the other:
    [set_single_wallpaper] leaves the collage file as it is and
    [create_collage] leaves the single-image file as it is, and both leave
    the grid and the loaders alone. *)
Theorem wallpapers_keep_each_other (W : World) (u : url) (urls : list url)
    (w : MainWindow) :
  files (set_single_wallpaper W u w) !! collage_path = files w !! collage_path
  ∧ files (create_collage W urls w) !! single_path = files w !! single_path
  ∧ grid (set_single_wallpaper W u w) = grid w
  ∧ grid (create_collage W urls w) = grid w
  ∧ loaders (set_single_wallpaper W u w) = loaders w
  ∧ loaders (create_collage W urls w) = loaders w.
Proof.
  destruct (outside_set_single_wallpaper W u w) as (Hg & Hl & _ & _ & Hf).
  destruct (outside_create_collage W urls w) as (Hg' & Hl' & _ & _ & Hf').
  split_and!; try done.
  - apply Hf. rewrite list_elem_of_singleton. discriminate.
  - apply Hf'. rewrite list_elem_of_singleton. discriminate.
Qed.

(** X13. When the download or the decoding of the single picture raises,
    one request has been sent, the message for a failed wallpaper is shown
    for three seconds with the text of the exception, and neither a file nor
    the desktop is touched. *)
Theorem set_single_wallpaper_failure (W : World) (u : url) (w : MainWindow)
    (e : string) :
  download W u = Raised e →
  requests_sent (set_single_wallpaper W u w) = requests_sent w ++ [GET_image u]
  ∧ shown_messages (set_single_wallpaper W u w)
    = shown_messages w ++ [msg_single_failed e]
  ∧ files (set_single_wallpaper W u w) = files w
  ∧ backgrounds (set_single_wallpaper W u w) = backgrounds w.
Proof.
  intros Hget. unfold set_single_wallpaper. cbv zeta. by rewrite Hget.
Qed.

Lemma set_single_wallpaper_failure_witness :
  download (sample_world (Ok [])) "down" = Raised "timed out"
  ∧ files (set_single_wallpaper (sample_world (Ok [])) "down" blank)
    = files blank.
Proof.
  split; [reflexivity|].
  exact (proj1 (proj2 (proj2
    (set_single_wallpaper_failure (sample_world (Ok [])) "down" blank
       "timed out" eq_refl)))).
Defined.

(** X14. When the picture is saved and the call that sets the background
    raises on a recognized platform, the message for a failed background is
    followed by the message for a wallpaper that was set; the file is
    written and nothing is handed to the desktop. *)
Theorem single_reports_success_after_desktop_failure (W : World) (u : url)
    (w : MainWindow) (img : Image) (out : bytes) (e : string) :
  download W u = Ok img →
  encode_jpeg W img = Ok out →
  recognized (platform W) = true →
  os_set_background W (abspath W single_path) = Raised e →
  shown_messages (set_single_wallpaper W u w)
  = shown_messages w ++ [msg_system_failed e; msg_single_ok]
  ∧ files (set_single_wallpaper W u w) !! single_path = Some out
  ∧ backgrounds (set_single_wallpaper W u w) = backgrounds w.
Proof.
  intros Hget Henc Hrec Hos.
  unfold set_single_wallpaper, save, set_system_wallpaper. cbv zeta.
  rewrite Hget, Henc, Hrec, Hos. simpl.
  split_and!; [by rewrite <- app_assoc| |done].
  apply lookup_insert_eq.
Qed.

Lemma single_reports_success_after_desktop_failure_witness :
  let W := refusing_world in
  download W "a" = Ok (Decoded png_stream (320, 240))
  ∧ encode_jpeg W (Decoded png_stream (320, 240)) = Ok jpeg_stream
  ∧ recognized (platform W) = true
  ∧ os_set_background W (abspath W single_path) = Raised "access denied"
  ∧ backgrounds (set_single_wallpaper W "a" blank) = backgrounds blank.
Proof.
  intros W.
  split; [reflexivity|]. split; [reflexivity|]. split; [reflexivity|].
  split; [reflexivity|].
  exact (proj2 (proj2 (single_reports_success_after_desktop_failure W "a" blank
           (Decoded png_stream (320, 240)) jpeg_stream "access denied"
           eq_refl eq_refl eq_refl eq_refl))).
Defined.

(** X15. On a platform that is none of linux, win32 and darwin, a single
    picture that is saved is reported as set although nothing is handed to
    the desktop, and no other message is shown. *)
Theorem single_reports_success_on_other_platform (W : World) (u : url)
    (w : MainWindow) (img : Image) (out : bytes) :
  download W u = Ok img →
  encode_jpeg W img = Ok out →
  platform W ≠ "linux" → platform W ≠ "win32" → platform W ≠ "darwin" →
  shown_messages (set_single_wallpaper W u w)
  = shown_messages w ++ [msg_single_ok]
  ∧ files (set_single_wallpaper W u w) !! single_path = Some out
  ∧ backgrounds (set_single_wallpaper W u w) = backgrounds w.
Proof.
  intros Hget Henc Hl Hw Hd.
  assert (Hrec : recognized (platform W) = false).
  { unfold recognized. by rewrite !bool_decide_eq_false_2. }
  unfold set_single_wallpaper, save, set_system_wallpaper. cbv zeta.
  rewrite Hget, Henc, Hrec. simpl. split_and!; [done| |done].
  apply lookup_insert_eq.
Qed.

Lemma single_reports_success_on_other_platform_witness :
  let W := freebsd_world in
  download W "a" = Ok (Decoded png_stream (320, 240))
  ∧ encode_jpeg W (Decoded png_stream (320, 240)) = Ok jpeg_stream
  ∧ platform W ≠ "linux" ∧ platform W ≠ "win32" ∧ platform W ≠ "darwin"
  ∧ shown_messages (set_single_wallpaper W "a" blank)
    = shown_messages blank ++ [msg_single_ok].
Proof.
  intros W.
  split; [reflexivity|]. split; [reflexivity|].
  split; [discriminate|]. split; [discriminate|]. split; [discriminate|].
  refine (proj1 (single_reports_success_on_other_platform W "a" blank
                   (Decoded png_stream (320, 240)) jpeg_stream
                   eq_refl eq_refl _ _ _)); discriminate.
Defined.

(** The loop up to the first URL that cannot be downloaded or decoded. *)
Lemma collage_loop_first_failure W index pre u post collage w e :
  Forall (λ x, ∃ img, download W x = Ok img) pre →
  download W u = Raised e →
  collage_loop W index (pre ++ u :: post) collage w
  = (Raised e, sends (GET_image <$> pre ++ [u]) w).
Proof.
  intros Hpre Hu. revert index collage w.
  induction Hpre as [|x pre [img Hx] Hpre IH]; intros index collage w; simpl.
  - rewrite Hu. by rewrite <- sends_send, sends_nil.
  - rewrite Hx, IH. by rewrite sends_send.
Qed.

(** X16. [create_collage] stops at the first of its nine URLs that cannot be
    downloaded or decoded: the URLs before it and the URL itself have been
    requested, in order, and none after it; the message for a failed collage
    carries the text of that exception; neither a file nor the desktop is
    touched. *)
Theorem create_collage_stops_at_failure (W : World) (urls pre post : list url)
    (u : url) (w : MainWindow) (e : string) :
  take 9 urls = pre ++ u :: post →
  Forall (λ x, ∃ img, download W x = Ok img) pre →
  download W u = Raised e →
  requests_sent (create_collage W urls w)
  = requests_sent w ++ (GET_image <$> pre ++ [u])
  ∧ shown_messages (create_collage W urls w)
    = shown_messages w ++ [msg_collage_failed e]
  ∧ files (create_collage W urls w) = files w
  ∧ backgrounds (create_collage W urls w) = backgrounds w.
Proof.
  intros Htake Hpre Hu. unfold create_collage. cbv zeta.
  by rewrite Htake, (collage_loop_first_failure W 0 pre u post _ w e Hpre Hu).
Qed.

Lemma create_collage_stops_at_failure_witness :
  let W := sample_world (Ok []) in
  take 9 ["a"; "down"; "b"] = ["a"] ++ "down" :: ["b"]
  ∧ Forall (λ x, ∃ img, download W x = Ok img) ["a"]
  ∧ download W "down" = Raised "timed out"
  ∧ requests_sent (create_collage W ["a"; "down"; "b"] blank)
    = requests_sent blank ++ (GET_image <$> ["a"] ++ ["down"]).
Proof.
  intros W.
  assert (Hpre : Forall (λ x, ∃ img, download W x = Ok img) ["a"]).
  { repeat constructor. by eexists. }
  split; [reflexivity|]. split; [exact Hpre|]. split; [reflexivity|].
  exact (proj1 (create_collage_stops_at_failure W ["a"; "down"; "b"] ["a"]
                  ["b"] "down" blank "timed out" eq_refl Hpre eq_refl)).
Defined.

(** X17. URLs after the ninth have no effect on [create_collage], and in
    every run the requests it sends are for the first of its nine URLs, in
    order, up to some point. *)
Theorem create_collage_first_nine (W : World) (urls : list url) (w : MainWindow) :
  create_collage W urls w = create_collage W (take 9 urls) w
  ∧ ∃ k, requests_sent (create_collage W urls w)
         = requests_sent w ++ (GET_image <$> take k (take 9 urls)).
Proof.
  split.
  - unfold create_collage. by rewrite take_take.
  - unfold create_collage. cbv zeta.
    destruct (collage_loop_frame W 0 (take 9 urls) (New "RGB" (1920, 1080)) w)
      as [k Hk].
    exists k.
    destruct (collage_loop W 0 (take 9 urls) (New "RGB" (1920, 1080)) w)
      as [[collage|e] w1]; simpl in Hk; subst w1; [|done].
    unfold save. destruct (encode_jpeg W collage) as [content|e];
      cbn [requests_sent show_message].
    + by rewrite requests_set_system_wallpaper.
    + by destruct (files _ !! collage_path).
Qed.

Lemma Forall_exists_Forall2 {A B} (P : A → B → Prop) (l : list A) :
  Forall (λ a, ∃ b, P a b) l → ∃ k, Forall2 P l k.
Proof.
  induction 1 as [|a l [b Hb] _ [k Hk]]; [by exists []|].
  exists (b :: k). by constructor.
Qed.

(** X18. On the canvas that [create_collage] composes there are at most nine
    pictures, every picture lies inside the 1920 by 1080 canvas, and no two
    pictures overlap. *)
Theorem collage_pictures_apart (W : World) (urls : list url) (w w1 : MainWindow)
    (collage : Image) :
  collage_loop W 0 (take 9 urls) blank_canvas w = (Ok collage, w1) →
  (length (layers collage) ≤ 9)%nat
  ∧ (∀ (i : nat) im box, layers collage !! i = Some (im, box) →
       0 ≤ box.1 ∧ box.1 + (im_size im).1 ≤ 1920
       ∧ 0 ≤ box.2 ∧ box.2 + (im_size im).2 ≤ 1080)
  ∧ (∀ (i j : nat) im_i box_i im_j box_j, i ≠ j →
       layers collage !! i = Some (im_i, box_i) →
       layers collage !! j = Some (im_j, box_j) →
       box_i.1 + (im_size im_i).1 ≤ box_j.1
       ∨ box_j.1 + (im_size im_j).1 ≤ box_i.1
       ∨ box_i.2 + (im_size im_i).2 ≤ box_j.2
       ∨ box_j.2 + (im_size im_j).2 ≤ box_i.2).
Proof.
  intros Hloop.
  destruct (collage_loop_returns W 0 (take 9 urls) blank_canvas w collage)
    as [Hall _]; [by rewrite Hloop|].
  apply Forall_exists_Forall2 in Hall as [imgs Hall].
  destruct (collage_loop_ok W 0 _ _ blank_canvas w Hall)
    as (c' & Heq & _ & Hlayers).
  rewrite Hloop in Heq. injection Heq as <- _. simpl in Hlayers.
  assert (Hlen : (length imgs ≤ 9)%nat).
  { rewrite <- (Forall2_length _ _ _ Hall), length_take. lia. }
  assert (Hcell : ∀ (i : nat) im box, layers collage !! i = Some (im, box) →
            (i < 9)%nat ∧ box = cell_corner (Z.of_nat i)
            ∧ (im_size im).1 ≤ 640 ∧ (im_size im).2 ≤ 360).
  { intros i im box. rewrite Hlayers, cells_lookup.
    destruct (imgs !! i) as [img|] eqn:Hi; simpl; [|done].
    intros [= <- <-]. apply lookup_lt_Some in Hi.
    destruct (thumbnail_in_cell img). split_and!; [lia|done..]. }
  split; [by rewrite Hlayers, cells_length|]. split.
  - intros i im box Hi. destruct (Hcell i im box Hi) as (Hlt & -> & Hw & Hh).
    unfold cell_corner. simpl.
    pose proof (Z.mod_pos_bound (Z.of_nat i) 3 ltac:(lia)).
    pose proof (Z.div_pos (Z.of_nat i) 3 ltac:(lia) ltac:(lia)).
    assert (Z.of_nat i `div` 3 < 3) by (apply Z.div_lt_upper_bound; lia).
    lia.
  - intros i j im_i box_i im_j box_j Hne Hi Hj.
    destruct (Hcell i im_i box_i Hi) as (Hlti & -> & Hwi & Hhi).
    destruct (Hcell j im_j box_j Hj) as (Hltj & -> & Hwj & Hhj).
    unfold cell_corner. simpl.
    pose proof (Z.mod_pos_bound (Z.of_nat i) 3 ltac:(lia)).
    pose proof (Z.mod_pos_bound (Z.of_nat j) 3 ltac:(lia)).
    pose proof (Z.div_mod (Z.of_nat i) 3 ltac:(lia)).
    pose proof (Z.div_mod (Z.of_nat j) 3 ltac:(lia)).
    lia.
Qed.

(** Ten URLs on the sample host. *)
Lemma collage_pictures_apart_witness :
  ∃ collage w1,
    collage_loop (sample_world (Ok [])) 0 (take 9 ten_urls) blank_canvas blank
    = (Ok collage, w1)
    ∧ (length (layers collage) ≤ 9)%nat.
Proof.
  eexists _, _. split; [reflexivity|].
  refine (proj1 (collage_pictures_apart (sample_world (Ok [])) ten_urls
                   blank _ _ eq_refl)).
Defined.

End WallpapersMore.

(** ** Sessions *)

Section Sessions.

Implicit Types (W : World) (w : MainWindow) (a : Action).

Lemma restyle_urls u l items :
  th_url <$> restyle u l items = th_url <$> items.
Proof.
  induction items as [|t items IH]; [done|]. cbn [restyle].
  destruct (decide (th_url t = u)); rewrite !fmap_cons; [done|].
  by rewrite IH.
Qed.

(** What a click on a label leaves alone. *)
Lemma toggle_selection_frame u w :
  wallpaper_timer (toggle_selection u w) = wallpaper_timer w
  ∧ files (toggle_selection u w) = files w
  ∧ loaders (toggle_selection u w) = loaders w
  ∧ th_url <$> grid (toggle_selection u w) = th_url <$> grid w.
Proof.
  unfold toggle_selection, update_selection_ui.
  repeat case_bool_decide; simpl; by rewrite ?restyle_urls.
Qed.

Lemma toggle_selection_enabled u w :
  (selected_images w ≠ [] → btn_generate_enabled w = true) →
  selected_images (toggle_selection u w) ≠ [] →
  btn_generate_enabled (toggle_selection u w) = true.
Proof.
  unfold toggle_selection, update_selection_ui.
  case_bool_decide as He; [done|].
  case_bool_decide as Hin; [|case_bool_decide as Hc; [done|]]; simpl.
  - intros _ Hne. apply bool_decide_eq_true.
    destruct (list_remove u (selected_images w)); [done|simpl; lia].
  - intros _ _. apply bool_decide_eq_true. rewrite length_app. simpl. lia.
Qed.

Lemma new_loaders_urls n image_urls :
  loader_url <$> new_loaders n image_urls = image_urls
  ∧ label <$> new_loaders n image_urls = seq n (length image_urls).
Proof.
  revert n. induction image_urls as [|u rest IH]; intros n; [done|].
  cbn [new_loaders length seq]. rewrite !fmap_cons.
  destruct (IH (S n)) as [-> ->]. done.
Qed.

Lemma new_thumbnails_urls i image_urls :
  th_url <$> new_thumbnails i image_urls = image_urls.
Proof.
  revert i. induction image_urls as [|u rest IH]; intros i; [done|].
  cbn [new_thumbnails]. by rewrite fmap_cons, IH.
Qed.

Lemma paired_load_images W w : paired w → paired (load_images W w).
Proof.
  intros [Hurl Hlbl].
  destruct (requests_get_listing W (current_page w)) as [image_urls|e] eqn:Hget.
  - rewrite (load_images_success W w image_urls Hget). unfold paired. simpl.
    destruct (new_loaders_urls (length (grid w)) image_urls) as [Hu Hl].
    rewrite !fmap_app, Hurl, Hlbl, Hu, Hl, new_thumbnails_urls.
    split; [done|].
    by rewrite length_app, new_thumbnails_length, seq_app.
  - by rewrite (load_images_failure W w e Hget).
Qed.

Lemma outside_mono paths paths' w w' :
  paths ⊆ paths' → outside paths w w' → outside paths' w w'.
Proof.
  intros Hsub (Hg & Hl & Hb & Hp & Hf). split_and!; try done.
  intros p Hout. apply Hf. intros Hin. by apply Hout, Hsub.
Qed.

(** [generate_wallpaper] is a run of one of the two ways of making a
    wallpaper, followed by the start of the timer. *)
Lemma generate_wallpaper_effect W w :
  ∃ w1, generate_wallpaper W w = timer_start 3600000 w1
        ∧ advances w w1
        ∧ outside [single_path; collage_path] w w1.
Proof.
  unfold generate_wallpaper. cbv zeta.
  set (w0 := show_message msg_generating.1 msg_generating.2 w).
  assert (H0 : advances w w0 ∧ outside [single_path; collage_path] w w0).
  { split; [apply advances_show_message|apply outside_show_message]. }
  destruct H0 as [Hadv Hout].
  case_bool_decide; eexists; (split; [done|]); split.
  - eapply advances_trans; [done|apply advances_set_single_wallpaper].
  - eapply outside_trans; [done|].
    eapply outside_mono; [|apply outside_set_single_wallpaper].
    intros p Hp. apply list_elem_of_singleton in Hp as ->. apply list_elem_of_here.
  - eapply advances_trans; [done|apply advances_create_collage].
  - eapply outside_trans; [done|].
    eapply outside_mono; [|apply outside_create_collage].
    intros p Hp. apply list_elem_of_singleton in Hp as ->.
    apply list_elem_of_further, list_elem_of_here.
Qed.

Lemma window_ok_generate W disk w :
  window_ok disk w → window_ok disk (generate_wallpaper W w).
Proof.
  intros (Hsel & Hex & Hbtn & _ & Hfiles & Hurl & Hlbl).
  destruct (generate_wallpaper_effect W w)
    as (w1 & -> & (Hs & He & Hb & _) & (Hg & Hl & _ & _ & Hf)).
  unfold window_ok, paired. simpl. rewrite Hs, He, Hb, Hg, Hl.
  split_and!; try done; [by right|].
  intros p Hp1 Hp2. rewrite Hf; [by apply Hfiles|].
  rewrite !elem_of_cons, elem_of_nil. tauto.
Qed.

Lemma window_ok_load_images W disk w :
  window_ok disk w → window_ok disk (load_images W w).
Proof.
  intros (Hsel & Hex & Hbtn & Htimer & Hfiles & Hpair).
  destruct (load_images_frame W w) as (Hs & He & Hb & Ht & Hf).
  unfold window_ok. rewrite Hs, He, Hb, Ht, Hf.
  split_and!; try done. by apply paired_load_images.
Qed.

Lemma window_ok_toggle_selection u disk w :
  window_ok disk w → window_ok disk (toggle_selection u w).
Proof.
  intros (Hsel & Hex & Hbtn & Htimer & Hfiles & Hurl & Hlbl).
  destruct (toggle_selection_frame u w) as (Ht & Hf & Hl & Hg).
  unfold window_ok, paired. rewrite excluded_toggle_selection, Ht, Hf, Hl, Hg.
  split_and!; try done.
  - by apply selection_ok_toggle.
  - by apply toggle_selection_enabled.
  - rewrite Hlbl. f_equal.
    by rewrite <- (length_fmap th_url (grid (toggle_selection u w))), Hg,
         length_fmap.
Qed.

Lemma window_ok_handle W a disk w :
  window_ok disk w → window_ok disk (handle W a w).
Proof.
  intros Hok. destruct a as [i| | |ty value maximum| |]; simpl.
  - destruct (grid w !! i); [by apply window_ok_toggle_selection|done].
  - apply window_ok_load_images.
    destruct Hok as (Hsel & Hex & Hbtn & Htimer & Hfiles & _).
    by split_and!.
  - unfold click_generate.
    destruct (btn_generate_enabled w); [by apply window_ok_generate|done].
  - destruct ty; [|done]. simpl. case_bool_decide; [|done].
    apply window_ok_load_images.
    destruct Hok as (Hsel & Hex & Hbtn & Htimer & Hfiles & Hpair).
    by split_and!.
  - unfold timer_timeout, update_wallpaper.
    destruct (wallpaper_timer w); [|done].
    case_bool_decide; [by apply window_ok_generate|done].
  - destruct Hok as (Hsel & Hex & Hbtn & Htimer & Hfiles & Hurl & Hlbl).
    unfold window_ok, paired, closeEvent. simpl. split_and!; try done.
    + rewrite <- Hurl, <- list_fmap_compose. by apply list_fmap_ext.
    + rewrite <- Hlbl, <- list_fmap_compose. by apply list_fmap_ext.
Qed.

Lemma window_ok_init W disk : window_ok disk (init W disk).
Proof.
  unfold init, load_new_batch. cbv zeta. apply window_ok_load_images.
  unfold window_ok, selection_ok, paired. simpl.
  split_and!; try done; [constructor|lia|by left].
Qed.

Lemma window_ok_run_actions steps disk w :
  window_ok disk w → window_ok disk (run_actions steps w).
Proof.
  revert w. induction steps as [|[W a] steps IH]; intros w Hok; [done|].
  simpl. by apply IH, window_ok_handle.
Qed.

Lemma handle_timer W a w :
  wallpaper_timer (handle W a w) = wallpaper_timer w
  ∨ wallpaper_timer (handle W a w) = Some 3600000.
Proof.
  destruct a as [i| | |ty value maximum| |]; simpl.
  - destruct (grid w !! i); [|by left]. left. apply toggle_selection_frame.
  - left. unfold load_new_batch. cbv zeta.
    match goal with |- context [load_images W ?v] =>
      by destruct (load_images_frame W v) as (_ & _ & _ & -> & _) end.
  - unfold click_generate. destruct (btn_generate_enabled w); [by right|by left].
  - destruct ty; [|by left]. simpl. case_bool_decide; [|by left].
    left. unfold load_more_images. cbv zeta.
    match goal with |- context [load_images W ?v] =>
      by destruct (load_images_frame W v) as (_ & _ & _ & -> & _) end.
  - unfold timer_timeout, update_wallpaper.
    destruct (wallpaper_timer w) eqn:Ht; [|left; by rewrite Ht].
    case_bool_decide; [by right|left; by rewrite Ht].
  - by left.
Qed.

Lemma run_actions_timer steps w :
  wallpaper_timer w = Some 3600000 →
  wallpaper_timer (run_actions steps w) = Some 3600000.
Proof.
  revert w. induction steps as [|[W a] steps IH]; intros w Ht; [done|].
  simpl. apply IH. destruct (handle_timer W a w) as [->| ->]; done.
Qed.

(** X19. Throughout every session the selection has no duplicates and at
    most ten URLs, and the list of excluded URLs is empty, so that no click
    is ever ignored for its URL being excluded. *)
Theorem session_selection (W : World) (disk : gmap string bytes)
    (steps : list (World * Action)) :
  let w := run_actions steps (init W disk) in
  NoDup (selected_images w)
  ∧ (length (selected_images w) ≤ 10)%nat
  ∧ excluded_urls w = [].
Proof.
  destruct (window_ok_run_actions steps disk _ (window_ok_init W disk))
    as ([Hnd Hlen] & Hex & _).
  done.
Qed.

(** X20. Throughout every session the button that generates the wallpaper is
    enabled whenever a URL is selected. *)
Theorem session_button (W : World) (disk : gmap string bytes)
    (steps : list (World * Action)) :
  let w := run_actions steps (init W disk) in
  selected_images w = [] ∨ btn_generate_enabled w = true.
Proof.
  destruct (window_ok_run_actions steps disk _ (window_ok_init W disk))
    as (_ & _ & Hbtn & _).
  cbv zeta. destruct (selected_images _) eqn:Hsel; [by left|].
  right. by apply Hbtn.
Qed.

(** X21. Throughout every session the files other than the single-image file
    and the collage file are what they were when the window was created. *)
Theorem session_files (W : World) (disk : gmap string bytes)
    (steps : list (World * Action)) (p : string) :
  p ≠ single_path → p ≠ collage_path →
  files (run_actions steps (init W disk)) !! p = disk !! p.
Proof.
  destruct (window_ok_run_actions steps disk _ (window_ok_init W disk))
    as (_ & _ & _ & _ & Hfiles & _).
  apply Hfiles.
Qed.

(** X22. In every session the timer is either not running or running with an
    interval of one hour, and once it runs it runs for the rest of the
    session: nothing stops it. *)
Theorem session_timer (W : World) (disk : gmap string bytes)
    (steps more : list (World * Action)) :
  let w := run_actions steps (init W disk) in
  (wallpaper_timer w = None ∨ wallpaper_timer w = Some 3600000)
  ∧ (wallpaper_timer w ≠ None →
     wallpaper_timer (run_actions more w) = Some 3600000).
Proof.
  destruct (window_ok_run_actions steps disk _ (window_ok_init W disk))
    as (_ & _ & _ & Htimer & _).
  cbv zeta. split; [done|]. intros Hrun. apply run_actions_timer.
  by destruct Htimer.
Qed.

(** X23. Throughout every session there is one loader for each label of the
    grid and one label for each loader: loader [i] was created for item [i]
    of the grid and loads the URL of that label. *)
Theorem session_loaders (W : World) (disk : gmap string bytes)
    (steps : list (World * Action)) :
  let w := run_actions steps (init W disk) in
  length (loaders w) = length (grid w)
  ∧ ∀ (i : nat) l, loaders w !! i = Some l →
      label l = i ∧ ∃ t, grid w !! i = Some t ∧ th_url t = loader_url l.
Proof.
  destruct (window_ok_run_actions steps disk _ (window_ok_init W disk))
    as (_ & _ & _ & _ & _ & Hurl & Hlbl).
  cbv zeta. set (w := run_actions steps (init W disk)) in *.
  assert (Hlen : length (loaders w) = length (grid w)).
  { by rewrite <- (length_fmap loader_url), Hurl, length_fmap. }
  split; [done|]. intros i l Hi. split.
  - assert (Hl : (label <$> loaders w) !! i = Some (label l))
      by (by rewrite list_lookup_fmap, Hi).
    rewrite Hlbl in Hl. apply lookup_seq in Hl as [Hl _]. simpl in Hl. done.
  - assert (Hu : (th_url <$> grid w) !! i = Some (loader_url l))
      by (by rewrite <- Hurl, list_lookup_fmap, Hi).
    rewrite list_lookup_fmap in Hu.
    destruct (grid w !! i) as [t|]; simpl in Hu; [|done].
    exists t. split; [done|]. congruence.
Qed.

End Sessions.

(** A file of the user next to the two files of the program. *)
Lemma session_files_witness :
  let W := sample_world (Ok ["a"; "b"]) in
  let disk : gmap string bytes := {["notes.txt" := png_stream]} in
  "notes.txt"%string ≠ single_path ∧ "notes.txt"%string ≠ collage_path
  ∧ files (run_actions [(W, PressThumbnail 0); (W, PressGenerate)]
             (init W disk)) !! "notes.txt" = disk !! "notes.txt".
Proof.
  intros W disk.
  assert (H1 : "notes.txt"%string ≠ single_path) by discriminate.
  assert (H2 : "notes.txt"%string ≠ collage_path) by discriminate.
  split; [exact H1|]. split; [exact H2|].
  exact (session_files W disk [(W, PressThumbnail 0); (W, PressGenerate)]
           "notes.txt" H1 H2).
Defined.

(** A session in which the wallpaper is generated, then refreshed, closed
    and left to the timer. *)
Lemma session_timer_witness :
  let W := sample_world (Ok ["a"; "b"]) in
  let w := run_actions [(W, PressThumbnail 0); (W, PressGenerate)] (init W ∅) in
  wallpaper_timer w ≠ None
  ∧ wallpaper_timer
      (run_actions [(W, PressRefresh); (W, PressThumbnail 0);
                    (W, TimerTimeout); (W, CloseWindow)] w)
    = Some 3600000.
Proof.
  intros W w.
  assert (Hrun : wallpaper_timer w ≠ None) by (vm_compute; discriminate).
  split; [exact Hrun|].
  exact (proj2 (session_timer W ∅ [(W, PressThumbnail 0); (W, PressGenerate)]
                  [(W, PressRefresh); (W, PressThumbnail 0);
                   (W, TimerTimeout); (W, CloseWindow)]) Hrun).
Defined.

(** The second loader of a window that shows two pictures, after a click. *)
Lemma session_loaders_witness :
  let W := sample_world (Ok ["a"; "b"]) in
  let w := run_actions [(W, PressThumbnail 0)] (init W ∅) in
  loaders w !! 1%nat = Some (new_loader 1 "b")
  ∧ label (new_loader 1 "b") = 1%nat.
Proof.
  intros W w.
  assert (Hl : loaders w !! 1%nat = Some (new_loader 1 "b")) by reflexivity.
  split; [exact Hl|].
  exact (proj1 (proj2 (session_loaders W ∅ [(W, PressThumbnail 0)]) 1%nat
                  (new_loader 1 "b") Hl)).
Defined.
